(** * The CSV catalogue loader ([load-dataset.py]), embedded and verified

    The development follows the layout of the script:

    - Python values: [str] as a list of code points, [None] as [option];
    - the library calls the script makes ([str.encode], [hashlib.sha1],
      [str.strip]) written out, and the ones that depend on tables outside
      the repository ([str.lower], [float], [int], [slugify], the
      constraints of [schema.sql], the two clocks) gathered in one record
      of externals;
    - the helpers [normalize_field], [normalize_category],
      [bool_from_value], [hash_component_id];
    - [upsert_components]: the row loop, then the three batched statements
      on a connection with a pending and a committed state;
    - [import_dataset]: the loop over the files with its [try/except]. *)

From Stdlib Require Import NArith ZArith String Ascii List Lia.
From stdpp Require Import base option list gmap sets.

Local Open Scope N_scope.

(** ** Python strings *)

(** A [str] is a sequence of code points. *)
Abbreviation pystr := (list N).

Fixpoint py (s : string) : pystr :=
  match s with
  | EmptyString => []
  | String a r => N_of_ascii a :: py r
  end.
Arguments py : simpl never.

(** Truth value of [x] for [x : Optional[str]]: [None] and [""] are false. *)
Definition truthy (x : option pystr) : bool :=
  match x with
  | Some (_ :: _) => true
  | _ => false
  end.

(** [x or y] on optional strings. *)
Definition py_or (x y : option pystr) : option pystr :=
  if truthy x then x else y.

(** [str.isspace] on one code point (the white-space table of CPython). *)
Definition py_isspace (c : N) : bool :=
  ((0x09 <=? c) && (c <=? 0x0D)) || ((0x1C <=? c) && (c <=? 0x20))
  || (c =? 0x85) || (c =? 0xA0) || (c =? 0x1680)
  || ((0x2000 <=? c) && (c <=? 0x200A))
  || (c =? 0x2028) || (c =? 0x2029) || (c =? 0x202F) || (c =? 0x205F)
  || (c =? 0x3000).

Fixpoint lstrip (s : pystr) : pystr :=
  match s with
  | c :: r => if py_isspace c then lstrip r else s
  | [] => []
  end.

Definition rstrip (s : pystr) : pystr := rev (lstrip (rev s)).

(** [s.strip()] *)
Definition strip (s : pystr) : pystr := rstrip (lstrip s).

(** [s.replace(a, b)] for single characters [a] and [b]. *)
Definition replace_char (a b : N) (s : pystr) : pystr :=
  map (fun c => if c =? a then b else c) s.

(** ** [str.encode("utf-8")] *)

Definition utf8_char (c : N) : option (list N) :=
  if c <? 0x80 then Some [c]
  else if c <? 0x800 then
    Some [N.lor 0xC0 (N.shiftr c 6); N.lor 0x80 (N.land c 0x3F)]
  else if (0xD800 <=? c) && (c <=? 0xDFFF) then None
  else if c <? 0x10000 then
    Some [N.lor 0xE0 (N.shiftr c 12);
          N.lor 0x80 (N.land (N.shiftr c 6) 0x3F);
          N.lor 0x80 (N.land c 0x3F)]
  else if c <? 0x110000 then
    Some [N.lor 0xF0 (N.shiftr c 18);
          N.lor 0x80 (N.land (N.shiftr c 12) 0x3F);
          N.lor 0x80 (N.land (N.shiftr c 6) 0x3F);
          N.lor 0x80 (N.land c 0x3F)]
  else None.

(** [None] stands for [UnicodeEncodeError] (a surrogate in the string). *)
Fixpoint utf8_encode (s : pystr) : option (list N) :=
  match s with
  | [] => Some []
  | c :: r =>
      match utf8_char c, utf8_encode r with
      | Some b, Some bs => Some (b ++ bs)
      | _, _ => None
      end
  end.

(** ** [hashlib.sha1] (FIPS 180-4), on 32-bit words held in [N] *)

Module SHA1.

Definition w32 (x : N) : N := x mod 0x100000000.

Definition add32 (x y : N) : N := w32 (x + y).

Definition rotl (n x : N) : N :=
  w32 (N.lor (N.shiftl x n) (N.shiftr x (32 - n))).

Definition not32 (x : N) : N := N.lxor x 0xFFFFFFFF.

Definition be64 (x : N) : list N :=
  map (fun i => N.land (N.shiftr x (8 * i)) 0xFF) [7; 6; 5; 4; 3; 2; 1; 0].

(** The message followed by [0x80], zero bytes up to 56 modulo 64, and the
    bit length on eight bytes. *)
Definition pad (msg : list N) : list N :=
  let len := N.of_nat (length msg) in
  let zeros := N.to_nat ((64 + 55 - len mod 64) mod 64) in
  msg ++ 0x80 :: repeat 0 zeros ++ be64 (8 * len).

Fixpoint words (fuel : nat) (bs : list N) : list N :=
  match fuel, bs with
  | S fuel, a :: b :: c :: d :: r =>
      (N.shiftl a 24 + N.shiftl b 16 + N.shiftl c 8 + d) :: words fuel r
  | _, _ => []
  end.

Fixpoint blocks (fuel : nat) (bs : list N) : list (list N) :=
  match fuel, bs with
  | S fuel, _ :: _ => words 16 (take 64 bs) :: blocks fuel (drop 64 bs)
  | _, _ => []
  end.

(** The message schedule, latest word first: [W t] from [W (t-3)],
    [W (t-8)], [W (t-14)], [W (t-16)]. *)
Fixpoint extend (n : nat) (rw : list N) : list N :=
  match n with
  | O => rw
  | S n =>
      let x := N.lxor (N.lxor (nth 2 rw 0) (nth 7 rw 0))
                      (N.lxor (nth 13 rw 0) (nth 15 rw 0)) in
      extend n (rotl 1 x :: rw)
  end.

Definition schedule (block : list N) : list N :=
  rev (extend 64 (rev block)).

Definition f (t : nat) (b c d : N) : N :=
  if (t <? 20)%nat then N.lor (N.land b c) (N.land (not32 b) d)
  else if (t <? 40)%nat then N.lxor (N.lxor b c) d
  else if (t <? 60)%nat then
    N.lor (N.lor (N.land b c) (N.land b d)) (N.land c d)
  else N.lxor (N.lxor b c) d.

Definition k (t : nat) : N :=
  if (t <? 20)%nat then 0x5A827999
  else if (t <? 40)%nat then 0x6ED9EBA1
  else if (t <? 60)%nat then 0x8F1BBCDC
  else 0xCA62C1D6.

Definition state : Type := N * N * N * N * N.

Definition round (st : state) (tw : nat * N) : state :=
  let '(a, b, c, d, e) := st in
  let '(t, w) := tw in
  let tmp := add32 (add32 (add32 (add32 (rotl 5 a) (f t b c d)) e) (k t)) w in
  (tmp, a, rotl 30 b, c, d).

Definition compress (h : state) (block : list N) : state :=
  let ws := schedule block in
  let '(a, b, c, d, e) := fold_left round (combine (seq 0 80) ws) h in
  let '(h0, h1, h2, h3, h4) := h in
  (add32 h0 a, add32 h1 b, add32 h2 c, add32 h3 d, add32 h4 e).

Definition init : state :=
  (0x67452301, 0xEFCDAB89, 0x98BADCFE, 0x10325476, 0xC3D2E1F0).

Definition digest (msg : list N) : state :=
  let p := pad msg in
  fold_left compress (blocks (length p) p) init.

Definition hex_digit (x : N) : N :=
  if x <? 10 then 48 + x else 87 + x.

Definition hex32 (w : N) : pystr :=
  map (fun i => hex_digit (N.land (N.shiftr w (4 * i)) 0xF))
      [7; 6; 5; 4; 3; 2; 1; 0].

(** [hashlib.sha1(msg).hexdigest()] *)
Definition hexdigest (msg : list N) : pystr :=
  let '(h0, h1, h2, h3, h4) := digest msg in
  hex32 h0 ++ hex32 h1 ++ hex32 h2 ++ hex32 h3 ++ hex32 h4.

End SHA1.

(** ** Exceptions and results *)

Inductive exn : Type :=
  | ValueError            (* float() or int() on an unparseable string *)
  | UnicodeEncodeError    (* str.encode on a surrogate *)
  | UnicodeDecodeError    (* reading a file that is not UTF-8 *)
  | CsvError              (* csv.Error while reading a file *)
  | IntegrityError.       (* a statement the server rejects *)

Inductive result (A : Type) : Type :=
  | Ok (a : A)
  | Raise (e : exn).
Arguments Ok {A} a.
Arguments Raise {A} e.

#[global] Instance result_ret : MRet result := fun A a => Ok a.
#[global] Instance result_bind : MBind result := fun A B f m =>
  match m with
  | Ok a => f a
  | Raise e => Raise e
  end.

(** [parse(s)] for a parser that raises [ValueError]. *)
Definition parse_or_raise {A : Type} (parse : pystr -> option A) (s : pystr)
  : result A :=
  match parse s with
  | Some a => Ok a
  | None => Raise ValueError
  end.

(** ** Records written to the database *)

(** [datetime] values, as microseconds. *)
Abbreviation Time := Z.

(** The dictionary [component] of [upsert_components]; [F] is the type of
    Python floats. *)
Record Component (F : Type) : Type := {
  id : pystr;
  category : pystr;
  name : pystr;
  brand : option pystr;
  price : option F;
  previous_price : option F;
  image_url : option pystr;
  product_url : option pystr;
  in_stock : option bool;
  stock_units : Z;
  last_updated : Time
}.
Arguments id {F} _.
Arguments category {F} _.
Arguments name {F} _.
Arguments brand {F} _.
Arguments price {F} _.
Arguments previous_price {F} _.
Arguments image_url {F} _.
Arguments product_url {F} _.
Arguments in_stock {F} _.
Arguments stock_units {F} _.
Arguments last_updated {F} _.

Record Attribute : Type := {
  attr_component_id : pystr;
  attribute_key : pystr;
  attribute_value : pystr
}.

Record Tag : Type := {
  tag_component_id : pystr;
  tag : pystr
}.

(** One parametrised statement, as [execute_batch] sends it. *)
Inductive Statement (F : Type) : Type :=
  | UpsertComponent (c : Component F)
  | UpsertAttribute (a : Attribute)
  | InsertTag (t : Tag).
Arguments UpsertComponent {F} c.
Arguments UpsertAttribute {F} a.
Arguments InsertTag {F} t.

(** ** What the script takes from outside the repository

    The Unicode case tables, the numeric parsers of the interpreter, the
    [slugify] package, the contents of [schema.sql] and the two clocks are
    not part of the sources. Every definition below takes them as one
    record and every theorem holds for all of them. *)
Record Externals : Type := {
  float : Type;
  py_float : pystr -> option float;     (* float(s), None for ValueError *)
  py_int : pystr -> option Z;           (* int(s), None for ValueError *)
  py_lower : pystr -> pystr;            (* s.lower() *)
  py_upper : pystr -> pystr;            (* s.upper() *)
  slugify : pystr -> pystr;             (* slugify(s) *)
  normalized_tag : pystr -> pystr;      (* column normalized_tag of a tag *)
  server_rejects : Statement float -> bool;  (* a constraint is violated *)
  utcnow : nat -> Time;                 (* n-th reading of datetime.utcnow() *)
  pg_now : nat -> Time                  (* NOW() in the n-th transaction *)
}.

(** ** Constants of the script *)

Definition STANDARD_FIELDS : gset pystr :=
  list_to_set (map py
    ["name"; "brand"; "price"; "previous_price"; "image_url"; "product_url";
     "in_stock"; "stock_units"]%string).

Definition ALIAS_MAP : gmap pystr pystr :=
  list_to_map (map (fun kv => (py kv.1, py kv.2))
    [("url", "product_url"); ("link", "product_url");
     ("image", "image_url"); ("img", "image_url");
     ("current_price", "price"); ("price_usd", "price");
     ("last_price", "previous_price");
     ("stock", "in_stock"); ("available", "in_stock")]%string).

Definition CATEGORY_MAP : gmap pystr pystr :=
  list_to_map (map (fun kv => (py kv.1, py kv.2))
    [("cpu", "CPU"); ("processor", "CPU");
     ("gpu", "GPU"); ("graphics_card", "GPU"); ("video_card", "GPU");
     ("ram", "RAM"); ("memory", "RAM");
     ("motherboard", "MOTHERBOARD"); ("mobo", "MOTHERBOARD");
     ("storage", "STORAGE"); ("ssd", "STORAGE"); ("hdd", "STORAGE");
     ("psu", "PSU"); ("power_supply", "PSU");
     ("case", "CASE"); ("chassis", "CASE")]%string).

Definition TRUE_WORDS : gset pystr :=
  list_to_set (map py
    ["true"; "t"; "1"; "yes"; "y"; "available"; "in stock"]%string).

Definition FALSE_WORDS : gset pystr :=
  list_to_set (map py
    ["false"; "f"; "0"; "no"; "n"; "out of stock"; "unavailable"]%string).

(** ** Helpers *)

Definition normalize_field (X : Externals) (field_name : pystr) : pystr :=
  let field_name := py_lower X (strip field_name) in
  default field_name (ALIAS_MAP !! field_name).

Definition normalize_category (X : Externals) (category_name : pystr) : pystr :=
  let category_slug :=
    py_lower X (replace_char 45 95 (slugify X category_name)) in
  default (py_upper X category_slug) (CATEGORY_MAP !! category_slug).

Definition bool_from_value (X : Externals) (value : option pystr)
  : option bool :=
  match value with
  | None => None
  | Some value =>
      let value := py_lower X (strip value) in
      if bool_decide (value ∈ TRUE_WORDS) then Some true
      else if bool_decide (value ∈ FALSE_WORDS) then Some false
      else None
  end.

Definition hash_component_id (category name url : pystr) : result pystr :=
  let base := category ++ py "|" ++ name ++ py "|" ++ url in
  match utf8_encode base with
  | Some bytes => Ok (SHA1.hexdigest bytes)
  | None => Raise UnicodeEncodeError
  end.

(** ** Rows read by [csv.DictReader] *)

(** One item of a row dictionary: a column of the header with its cell
    ([None] when the line is short), or the surplus cells of a long line,
    which DictReader files under the key [None]. *)
Inductive raw_item : Type :=
  | Field (k : pystr) (v : option pystr)
  | Rest (extra : list pystr).

Abbreviation raw_row := (list raw_item).

(** The dictionary [normalized]: keys in insertion order, each key once. *)
Abbreviation dict := (list (pystr * option pystr)).

(** [d[k] = v]: an existing key keeps its place. *)
Fixpoint dict_set (d : dict) (k : pystr) (v : option pystr) : dict :=
  match d with
  | [] => [(k, v)]
  | (k', v') :: r =>
      if bool_decide (k' = k) then (k, v) :: r else (k', v') :: dict_set r k v
  end.

(** [d.get(k)]: [None] for a missing key and for a key bound to [None]. *)
Fixpoint dict_get (d : dict) (k : pystr) : option pystr :=
  match d with
  | [] => None
  | (k', v) :: r => if bool_decide (k' = k) then v else dict_get r k
  end.

(** One step of the comprehension
    [{normalize_field(k): v.strip() ... for k, v in raw.items() if k}]. *)
Definition normalize_item (X : Externals) (normalized : dict) (it : raw_item)
  : dict :=
  match it with
  | Field k v =>
      if truthy (Some k)
      then dict_set normalized (normalize_field X k) (strip <$> v)
      else normalized
  | Rest _ => normalized
  end.

(** The key an item is filed under, if it is kept. *)
Definition item_key (X : Externals) (it : raw_item) : option pystr :=
  match it with
  | Field k _ => if truthy (Some k) then Some (normalize_field X k) else None
  | Rest _ => None
  end.

Definition normalize_raw (X : Externals) (raw : raw_row) : dict :=
  foldl (normalize_item X) [] raw.

(** The loop over [normalized.items()] that fills [attr_payload]. *)
Definition row_attributes (component_id : pystr) (normalized : dict)
  : list Attribute :=
  omap (fun kv : pystr * option pystr =>
          let (key, value) := kv in
          if bool_decide (key ∈ STANDARD_FIELDS) || negb (truthy value)
          then None
          else Some {| attr_component_id := component_id;
                       attribute_key := key;
                       attribute_value := default [] value |})
       normalized.

(** The set [tags] of one row. *)
Definition row_tags (category : pystr) (brand : option pystr) : gset pystr :=
  let tags : gset pystr := ∅ in
  let tags := if truthy brand then {[default [] brand]} ∪ tags else tags in
  {[category]} ∪ tags.

Definition tag_records (component_id : pystr) (tags : gset pystr) : list Tag :=
  (fun t => {| tag_component_id := component_id; tag := t |})
    <$> elements tags.

(** The three records of one accepted row. *)
Record RowRecords (F : Type) : Type := {
  row_component : Component F;
  row_attrs : list Attribute;
  row_tag_records : list Tag
}.
Arguments row_component {F} _.
Arguments row_attrs {F} _.
Arguments row_tag_records {F} _.

(** [float(normalized[key]) if normalized.get(key) else None] and its
    sibling for [int]. *)
Definition parse_if_present {A : Type} (parse : pystr -> option A)
    (value : option pystr) : result (option A) :=
  if truthy value
  then a ← parse_or_raise parse (default [] value); mret (Some a)
  else mret None.

(** [normalized.get("product_url") or normalized.get("url") or ""] *)
Definition row_product_url (normalized : dict) : pystr :=
  default [] (py_or (py_or (dict_get normalized (py "product_url"))
                           (dict_get normalized (py "url")))
                    (Some [])).

(** [bool_from_value(normalized.get("in_stock"))
     if normalized.get("in_stock") else True] *)
Definition row_in_stock (X : Externals) (normalized : dict) : option bool :=
  if truthy (dict_get normalized (py "in_stock"))
  then bool_from_value X (dict_get normalized (py "in_stock"))
  else Some true.

(** The body of [for raw in rows]: [Ok None] is [continue]. *)
Definition process_row (X : Externals) (now : Time) (category : pystr)
    (raw : raw_row) : result (option (RowRecords (float X))) :=
  let normalized := normalize_raw X raw in
  let name := dict_get normalized (py "name") in
  if negb (truthy name) then mret None else
  let name := default [] name in
  let brand := dict_get normalized (py "brand") in
  let product_url := row_product_url normalized in
  component_id ← hash_component_id category name product_url;
  price ← parse_if_present (py_float X) (dict_get normalized (py "price"));
  previous_price ←
    parse_if_present (py_float X) (dict_get normalized (py "previous_price"));
  let in_stock := row_in_stock X normalized in
  stock_units ←
    parse_if_present (py_int X) (dict_get normalized (py "stock_units"));
  let component := {|
    id := component_id;
    category := category;
    name := name;
    brand := brand;
    price := price;
    previous_price := previous_price;
    image_url := dict_get normalized (py "image_url");
    product_url := if truthy (Some product_url) then Some product_url else None;
    in_stock := in_stock;
    stock_units := default 0%Z stock_units;
    last_updated := now |} in
  mret (Some {| row_component := component;
                row_attrs := row_attributes component_id normalized;
                row_tag_records :=
                  tag_records component_id (row_tags category brand) |}).

(** The three lists built by the loop. *)
Record Payloads (F : Type) : Type := {
  components_payload : list (Component F);
  attr_payload : list Attribute;
  tag_payload : list Tag
}.
Arguments components_payload {F} _.
Arguments attr_payload {F} _.
Arguments tag_payload {F} _.

Definition no_payloads {F : Type} : Payloads F :=
  {| components_payload := []; attr_payload := []; tag_payload := [] |}.

Definition append_row {F : Type} (acc : Payloads F) (r : RowRecords F)
  : Payloads F :=
  {| components_payload := components_payload acc ++ [row_component r];
     attr_payload := attr_payload acc ++ row_attrs r;
     tag_payload := tag_payload acc ++ row_tag_records r |}.

(** Every attribute and tag record of [p] names a component of [p]. *)
Definition referentially_closed {F : Type} (p : Payloads F) : Prop :=
  (forall a, a ∈ attr_payload p ->
     exists c, c ∈ components_payload p /\ id c = attr_component_id a) /\
  (forall g, g ∈ tag_payload p ->
     exists c, c ∈ components_payload p /\ id c = tag_component_id g).

(** The whole loop [for raw in rows], from the lists built so far. *)
Fixpoint normalize_rows (X : Externals) (now : Time) (category : pystr)
    (rows : list raw_row) (acc : Payloads (float X))
  : result (Payloads (float X)) :=
  match rows with
  | [] => Ok acc
  | raw :: rest =>
      match process_row X now category raw with
      | Raise e => Raise e
      | Ok None => normalize_rows X now category rest acc
      | Ok (Some r) => normalize_rows X now category rest (append_row acc r)
      end
  end.

(** ** The database *)

(** A row of table [components]: the columns the script sends, and
    [updated_at], which the INSERT leaves to the schema ([None]) and the
    ON CONFLICT branch sets to [NOW()]. *)
Record ComponentRow (F : Type) : Type := {
  columns : Component F;
  updated_at : option Time
}.
Arguments columns {F} _.
Arguments updated_at {F} _.

(** The three tables, each keyed by the conflict target of its statement:
    [components] by [id], [component_attributes] by
    [(component_id, attribute_key)], [component_tags] by
    [(component_id, normalized_tag)]. *)
Record Tables (F : Type) : Type := {
  components : gmap pystr (ComponentRow F);
  component_attributes : gmap (pystr * pystr) pystr;
  component_tags : gmap (pystr * pystr) pystr
}.
Arguments components {F} _.
Arguments component_attributes {F} _.
Arguments component_tags {F} _.

(** [ON CONFLICT (id) DO UPDATE SET ...]: every column but [id],
    [category] and [name] is taken from the new values. *)
Definition on_conflict_update {F : Type} (now_db : Time)
    (old : ComponentRow F) (c : Component F) : ComponentRow F :=
  {| columns := {|
       id := id (columns old);
       category := category (columns old);
       name := name (columns old);
       brand := brand c;
       price := price c;
       previous_price := previous_price c;
       image_url := image_url c;
       product_url := product_url c;
       in_stock := in_stock c;
       stock_units := stock_units c;
       last_updated := last_updated c |};
     updated_at := Some now_db |}.

Definition upsert_row {F : Type} (now_db : Time)
    (old : option (ComponentRow F)) (c : Component F) : ComponentRow F :=
  match old with
  | None => {| columns := c; updated_at := None |}
  | Some old => on_conflict_update now_db old c
  end.

(** The effect of one accepted statement on the tables. *)
Definition apply_statement (X : Externals) (now_db : Time)
    (t : Tables (float X)) (s : Statement (float X)) : Tables (float X) :=
  match s with
  | UpsertComponent c =>
      {| components :=
           <[id c := upsert_row now_db (components t !! id c) c]>
             (components t);
         component_attributes := component_attributes t;
         component_tags := component_tags t |}
  | UpsertAttribute a =>
      {| components := components t;
         component_attributes :=
           <[(attr_component_id a, attribute_key a) := attribute_value a]>
             (component_attributes t);
         component_tags := component_tags t |}
  | InsertTag g =>
      let key := (tag_component_id g, normalized_tag X (tag g)) in
      {| components := components t;
         component_attributes := component_attributes t;
         component_tags :=
           match component_tags t !! key with
           | Some _ => component_tags t
           | None => <[key := tag g]> (component_tags t)
           end |}
  end.

(** A psycopg2 connection: what is committed, what the open transaction
    sees, the number of transactions ended so far, whether table
    [components] exists, and whether [close] was called. *)
Record Connection (F : Type) : Type := {
  committed : Tables F;
  pending : Tables F;
  txn : nat;
  has_components_table : bool;
  closed : bool
}.
Arguments committed {F} _.
Arguments pending {F} _.
Arguments txn {F} _.
Arguments has_components_table {F} _.
Arguments closed {F} _.

Definition conn_commit {F : Type} (c : Connection F) : Connection F :=
  {| committed := pending c; pending := pending c; txn := S (txn c);
     has_components_table := has_components_table c; closed := closed c |}.

Definition conn_rollback {F : Type} (c : Connection F) : Connection F :=
  {| committed := committed c; pending := committed c; txn := S (txn c);
     has_components_table := has_components_table c; closed := closed c |}.

(** [conn.close()] discards what was not committed. *)
Definition conn_close {F : Type} (c : Connection F) : Connection F :=
  {| committed := committed c; pending := committed c; txn := txn c;
     has_components_table := has_components_table c; closed := true |}.

(** ** Console output *)

Inductive Msg : Type :=
  | MsgConnecting
  | MsgNoTable
  | MsgRunSchema
  | MsgNoCsv
  | MsgFound (n : nat)
  | MsgProcessing (stem : pystr)
  | MsgCategory (category : pystr)
  | MsgEmptyFile
  | MsgComponents (n : nat)
  | MsgAttributes (n : nat)
  | MsgTags (n : nat)
  | MsgBlank
  | MsgDone (total : nat)
  | MsgError (e : exn).

(** ** The state the script runs in, and its effects *)

Record World (F : Type) : Type := {
  conn : Connection F;
  clock_reads : nat;        (* calls of datetime.utcnow() so far *)
  console : list Msg        (* lines printed so far, oldest first *)
}.
Arguments conn {F} _.
Arguments clock_reads {F} _.
Arguments console {F} _.

Inductive outcome (F A : Type) : Type :=
  | Returned (a : A) (w : World F)
  | Raised (e : exn) (w : World F).
Arguments Returned {F A} a w.
Arguments Raised {F A} e w.

Definition M (F A : Type) : Type := World F -> outcome F A.

#[global] Instance M_ret {F : Type} : MRet (M F) := fun A a w => Returned a w.
#[global] Instance M_bind {F : Type} : MBind (M F) := fun A B f m w =>
  match m w with
  | Returned a w' => f a w'
  | Raised e w' => Raised e w'
  end.

Definition on_conn {F : Type} (f : Connection F -> Connection F) (w : World F)
  : World F :=
  {| conn := f (conn w); clock_reads := clock_reads w; console := console w |}.

Definition say {F : Type} (m : Msg) (w : World F) : World F :=
  {| conn := conn w; clock_reads := clock_reads w;
     console := console w ++ [m] |}.

Definition tick {F : Type} (w : World F) : World F :=
  {| conn := conn w; clock_reads := S (clock_reads w); console := console w |}.

Definition with_conn {F : Type} (f : Connection F -> Connection F) : M F unit :=
  fun w => Returned tt (on_conn f w).

Definition print {F : Type} (m : Msg) : M F unit :=
  fun w => Returned tt (say m w).

Definition raise {F A : Type} (e : exn) : M F A := fun w => Raised e w.

Definition lift {F A : Type} (r : result A) : M F A :=
  match r with
  | Ok a => mret a
  | Raise e => raise e
  end.

(** [datetime.utcnow()] *)
Definition read_utcnow (X : Externals) : M (float X) Time :=
  fun w => Returned (utcnow X (clock_reads w)) (tick w).

(** An accepted statement acts on what the open transaction sees. *)
Definition conn_apply (X : Externals) (s : Statement (float X))
    (c : Connection (float X)) : Connection (float X) :=
  {| committed := committed c;
     pending := apply_statement X (pg_now X (txn c)) (pending c) s;
     txn := txn c;
     has_components_table := has_components_table c;
     closed := closed c |}.

(** One statement on the cursor: rejected with an error, or applied to the
    open transaction. *)
Definition execute (X : Externals) (s : Statement (float X))
  : M (float X) unit :=
  fun w =>
    if server_rejects X s then Raised IntegrityError w
    else with_conn (conn_apply X s) w.

(** [execute_batch(cur, sql, argslist)]: the statement once per element of
    [argslist], in order; the page size only groups the round trips. *)
Fixpoint execute_batch (X : Externals) (stmts : list (Statement (float X)))
  : M (float X) unit :=
  match stmts with
  | [] => mret tt
  | s :: rest => execute X s;; execute_batch X rest
  end.

(** ** [upsert_components] *)

(** [if payload: execute_batch(...); print(...)] *)
Definition batch_if_any (X : Externals) {A : Type}
    (mk : A -> Statement (float X)) (report : nat -> Msg) (payload : list A)
  : M (float X) unit :=
  match payload with
  | [] => mret tt
  | _ :: _ => execute_batch X (mk <$> payload);; print (report (length payload))
  end.

Definition upsert_components (X : Externals) (category : pystr)
    (rows : list raw_row) : M (float X) unit :=
  now ← read_utcnow X;
  p ← lift (normalize_rows X now category rows no_payloads);
  batch_if_any X UpsertComponent MsgComponents (components_payload p);;
  batch_if_any X UpsertAttribute MsgAttributes (attr_payload p);;
  batch_if_any X InsertTag MsgTags (tag_payload p);;
  with_conn conn_commit.

(** ** [import_dataset] *)

(** One file of the dataset directory: the stem of its name and what
    [list(parse_csv(path))] gives. *)
Record CsvFile : Type := {
  stem : pystr;
  contents : result (list raw_row)
}.

(** The name of a file [glob("*.csv")] yields: its stem and [".csv"]. *)
Definition file_name (f : CsvFile) : pystr := stem f ++ py ".csv".

(** [<] on [str]: code point by code point, a proper prefix first. *)
Fixpoint str_ltb (s t : pystr) : bool :=
  match s, t with
  | _, [] => false
  | [], _ :: _ => true
  | a :: s', b :: t' => (a <? b) || ((a =? b) && str_ltb s' t')
  end.

(** The lists [sorted(dataset_dir.glob("*.csv"))] can give: the files of
    one directory compare by their names, and no two have the same name. *)
Fixpoint sorted_glob (csv_files : list CsvFile) : bool :=
  match csv_files with
  | [] => true
  | f :: rest =>
      match rest with
      | [] => true
      | g :: _ => str_ltb (file_name f) (file_name g)
      end && sorted_glob rest
  end.

(** The body of [for csv_path in csv_files], returning the new total. *)
Definition import_file (X : Externals) (total_components : nat) (f : CsvFile)
  : M (float X) nat :=
  let category := normalize_category X (stem f) in
  print (MsgProcessing (stem f));;
  print (MsgCategory category);;
  rows ← lift (contents f);
  match rows with
  | [] => print MsgEmptyFile;; mret total_components
  | _ :: _ =>
      upsert_components X category rows;;
      print MsgBlank;;
      mret (total_components + length rows)%nat
  end.

Fixpoint import_files (X : Externals) (total_components : nat)
    (csv_files : list CsvFile) : M (float X) nat :=
  match csv_files with
  | [] => mret total_components
  | f :: rest =>
      total_components ← import_file X total_components f;
      import_files X total_components rest
  end.

(** The [try] block. [csv_files] is [sorted(dataset_dir.glob("*.csv"))]. *)
Definition import_body (X : Externals) (csv_files : list CsvFile)
  : M (float X) bool :=
  fun w =>
    if negb (has_components_table (conn w))
    then (print MsgNoTable;; print MsgRunSchema;; mret false) w
    else match csv_files with
         | [] => (print MsgNoCsv;; mret false) w
         | _ :: _ =>
             (print (MsgFound (length csv_files));;
              total_components ← import_files X 0%nat csv_files;
              print (MsgDone total_components);;
              mret true) w
         end.

(** [import_dataset]: the [try] block, the [except Exception] handler and
    the [finally] clause. The connection of [w] is the one
    [psycopg2.connect(dsn)] returns. *)
Definition import_dataset (X : Externals) (csv_files : list CsvFile)
    (w : World (float X)) : bool * World (float X) :=
  let finally := on_conn conn_close in
  match (print MsgConnecting;; import_body X csv_files) w with
  | Returned b w' => (b, finally w')
  | Raised e w' =>
      match (print (MsgError e);; with_conn conn_rollback) w' with
      | Returned _ w'' => (false, finally w'')
      | Raised _ w'' => (false, finally w'')
      end
  end.

(** ** Notions used in the statements *)

(** The statements one call sends, in order. *)
Definition statements {F : Type} (p : Payloads F) : list (Statement F) :=
  (UpsertComponent <$> components_payload p)
  ++ (UpsertAttribute <$> attr_payload p)
  ++ (InsertTag <$> tag_payload p).

(** The line one batch prints, if it has anything to send. *)
Definition report_if_any {A : Type} (report : nat -> Msg) (payload : list A)
  : list Msg :=
  match payload with
  | [] => []
  | _ :: _ => [report (length payload)]
  end.

(** The lines one successful call prints. *)
Definition batch_messages {F : Type} (p : Payloads F) : list Msg :=
  report_if_any MsgComponents (components_payload p)
  ++ report_if_any MsgAttributes (attr_payload p)
  ++ report_if_any MsgTags (tag_payload p).

Definition apply_all (X : Externals) (now_db : Time)
    (t : Tables (float X)) (stmts : list (Statement (float X)))
  : Tables (float X) :=
  foldl (apply_statement X now_db) t stmts.

Definition accepted (X : Externals) (s : Statement (float X)) : bool :=
  negb (server_rejects X s).

(** The world with the open transaction seeing [t]. *)
Definition set_pending {F : Type} (t : Tables F) (w : World F) : World F :=
  on_conn (fun c => {| committed := committed c; pending := t; txn := txn c;
                       has_components_table := has_components_table c;
                       closed := closed c |}) w.

(** The world after the lines [msgs] were printed. *)
Definition says {F : Type} (msgs : list Msg) (w : World F) : World F :=
  {| conn := conn w; clock_reads := clock_reads w;
     console := console w ++ msgs |}.

(** The three statements, each on its own table. *)
Definition upsert_into {F : Type} (now_db : Time)
    (m : gmap pystr (ComponentRow F)) (c : Component F)
  : gmap pystr (ComponentRow F) :=
  <[id c := upsert_row now_db (m !! id c) c]> m.

Definition set_attribute (m : gmap (pystr * pystr) pystr) (a : Attribute)
  : gmap (pystr * pystr) pystr :=
  <[(attr_component_id a, attribute_key a) := attribute_value a]> m.

Definition tag_key (X : Externals) (g : Tag) : pystr * pystr :=
  (tag_component_id g, normalized_tag X (tag g)).

Definition add_tag (X : Externals) (m : gmap (pystr * pystr) pystr) (g : Tag)
  : gmap (pystr * pystr) pystr :=
  match m !! tag_key X g with
  | Some _ => m
  | None => <[tag_key X g := tag g]> m
  end.

(** What the same statements do to the row under one key. *)
Definition component_step {F : Type} (now_db : Time) (k : pystr)
    (o : option (ComponentRow F)) (c : Component F) : option (ComponentRow F) :=
  if bool_decide (id c = k) then Some (upsert_row now_db o c) else o.

Definition attribute_step (k : pystr * pystr) (o : option pystr) (a : Attribute)
  : option pystr :=
  if bool_decide ((attr_component_id a, attribute_key a) = k)
  then Some (attribute_value a) else o.

Definition tag_step (X : Externals) (k : pystr * pystr) (o : option pystr)
    (g : Tag) : option pystr :=
  if bool_decide (tag_key X g = k)
  then match o with Some _ => o | None => Some (tag g) end
  else o.

(** Two rows of [components] with the same [id], [category] and [name]. *)
Definition same_identity {F : Type} (r r' : ComponentRow F) : Prop :=
  id (columns r) = id (columns r') /\
  category (columns r) = category (columns r') /\
  name (columns r) = name (columns r').

(** A row of [components] without its two time stamps. *)
Definition without_times {F : Type} (r : ComponentRow F) : ComponentRow F :=
  {| columns := {|
       id := id (columns r);
       category := category (columns r);
       name := name (columns r);
       brand := brand (columns r);
       price := price (columns r);
       previous_price := previous_price (columns r);
       image_url := image_url (columns r);
       product_url := product_url (columns r);
       in_stock := in_stock (columns r);
       stock_units := stock_units (columns r);
       last_updated := 0%Z |};
     updated_at := None |}.

(** The component [c] as it would be built at time [t]. *)
Definition at_time {F : Type} (t : Time) (c : Component F) : Component F :=
  {| id := id c;
     category := category c;
     name := name c;
     brand := brand c;
     price := price c;
     previous_price := previous_price c;
     image_url := image_url c;
     product_url := product_url c;
     in_stock := in_stock c;
     stock_units := stock_units c;
     last_updated := t |}.

Definition records_at_time {F : Type} (t : Time) (r : RowRecords F)
  : RowRecords F :=
  {| row_component := at_time t (row_component r);
     row_attrs := row_attrs r;
     row_tag_records := row_tag_records r |}.

Definition payloads_at_time {F : Type} (t : Time) (p : Payloads F)
  : Payloads F :=
  {| components_payload := at_time t <$> components_payload p;
     attr_payload := attr_payload p;
     tag_payload := tag_payload p |}.

(** The world in which the loop over the files starts. *)
Definition at_loop_entry {F : Type} (n_files : nat) (w : World F) : World F :=
  say (MsgFound n_files) (say MsgConnecting w).

(** The world [import_dataset] ends in when [e] was raised in world [w]. *)
Definition after_failure {F : Type} (e : exn) (w : World F) : World F :=
  on_conn conn_close (on_conn conn_rollback (say (MsgError e) w)).

(** A failed run leaves committed only what was committed before it. *)
Definition failure_leaves_nothing (X : Externals) (csv_files : list CsvFile)
    (w : World (float X)) : Prop :=
  (import_dataset X csv_files w).1 = false ->
  committed (conn (import_dataset X csv_files w).2) = committed (conn w).

(** All the component rows committed at the end of a run carry one and the
    same [last_updated]. *)
Definition one_timestamp_per_run (X : Externals) (csv_files : list CsvFile)
    (w : World (float X)) : Prop :=
  forall k1 k2 r1 r2,
    components (committed (conn (import_dataset X csv_files w).2)) !! k1
      = Some r1 ->
    components (committed (conn (import_dataset X csv_files w).2)) !! k2
      = Some r2 ->
    last_updated (columns r1) = last_updated (columns r2).




(** [d'] is [d] with the binding [(K, v)] of a new key put in somewhere. *)
Definition inserted_key (K : pystr) (v : option pystr) (d d' : dict) : Prop :=
  exists d1 d2, d = d1 ++ d2 /\ d' = d1 ++ (K, v) :: d2.

(** ** An instance of the externals, for examples

    ASCII case mapping; [digits[.digits]] read as an exact decimal
    (mantissa and number of fraction digits) and [[-]digits] as an integer;
    a server that accepts every statement; clocks that advance by one at
    each reading. On such inputs it agrees with the interpreter. *)

Definition ascii_lower (s : pystr) : pystr :=
  map (fun c => if (65 <=? c) && (c <=? 90) then c + 32 else c) s.

Definition ascii_upper (s : pystr) : pystr :=
  map (fun c => if (97 <=? c) && (c <=? 122) then c - 32 else c) s.

Definition is_digit (c : N) : bool := (48 <=? c) && (c <=? 57).

Fixpoint digits_value (acc : Z) (s : pystr) : option Z :=
  match s with
  | [] => Some acc
  | c :: r =>
      if is_digit c then digits_value (10 * acc + Z.of_N (c - 48))%Z r
      else None
  end.

Definition ascii_int (s : pystr) : option Z :=
  match strip s with
  | [] => None
  | 45 :: (_ :: _) as r => Z.opp <$> digits_value 0 r
  | r => digits_value 0 r
  end.

Fixpoint split_dot (s : pystr) : pystr * option pystr :=
  match s with
  | [] => ([], None)
  | c :: r =>
      if c =? 46 then ([], Some r)
      else let (a, b) := split_dot r in (c :: a, b)
  end.

Definition ascii_float (s : pystr) : option (Z * nat) :=
  let (whole, frac) := split_dot (strip s) in
  let frac := default [] frac in
  match whole ++ frac with
  | [] => None
  | ds => m ← digits_value 0 ds; Some (m, length frac)
  end.

Definition ascii_slugify (s : pystr) : pystr :=
  map (fun c => if is_digit c || ((97 <=? c) && (c <=? 122)) then c else 45)
      (ascii_lower s).

Definition ascii_externals : Externals := {|
  float := Z * nat;
  py_float := ascii_float;
  py_int := ascii_int;
  py_lower := ascii_lower;
  py_upper := ascii_upper;
  slugify := ascii_slugify;
  normalized_tag := fun t => ascii_lower (strip t);
  server_rejects := fun _ => false;
  utcnow := fun n => Z.of_nat n;
  pg_now := fun n => Z.of_nat n
|}.

(** The same, on a server whose column [in_stock] is NOT NULL. *)
Definition strict_externals : Externals := {|
  float := Z * nat;
  py_float := ascii_float;
  py_int := ascii_int;
  py_lower := ascii_lower;
  py_upper := ascii_upper;
  slugify := ascii_slugify;
  normalized_tag := fun t => ascii_lower (strip t);
  server_rejects := fun s =>
    match s with
    | UpsertComponent c => negb (bool_decide (is_Some (in_stock c)))
    | _ => false
    end;
  utcnow := fun n => Z.of_nat n;
  pg_now := fun n => Z.of_nat n
|}.

Definition empty_tables {F : Type} : Tables F :=
  {| components := ∅; component_attributes := ∅; component_tags := ∅ |}.

(** A freshly opened connection to an empty database with the schema
    loaded, before anything was printed. *)
Definition fresh_world {F : Type} : World F :=
  {| conn := {| committed := empty_tables; pending := empty_tables;
                txn := 0; has_components_table := true; closed := false |};
     clock_reads := 0;
     console := [] |}.

(** [name,brand,price,url,wattage] with one line, the scenario of the
    documentation. *)
Definition rtx_row : raw_row :=
  [Field (py "name") (Some (py "RTX 4090"));
   Field (py "brand") (Some (py "NVIDIA"));
   Field (py "price") (Some (py "1599.99"));
   Field (py "url") (Some (py "http://x/y"));
   Field (py "wattage") (Some (py "450W"))].

Definition maybe_row : raw_row :=
  [Field (py "name") (Some (py "Core i5"));
   Field (py "Stock") (Some (py " maybe "))].

Definition yes_row : raw_row :=
  [Field (py "name") (Some (py "Core i5"));
   Field (py "Available") (Some (py " YES "))].

Definition intel_row : raw_row :=
  [Field (py "name") (Some (py "Core i5"));
   Field (py "brand") (Some (py "Intel"));
   Field (py "price") (Some (py "199.00"))].

(** A price that is not a number. *)
Definition bad_price_row : raw_row :=
  [Field (py "name") (Some (py "Ryzen 5"));
   Field (py "price") (Some (py "abc"))].

(** No name, and a price that would not parse. *)
Definition nameless_row : raw_row :=
  [Field (py "name") (Some (py "  "));
   Field (py "brand") (Some (py "AMD"));
   Field (py "price") (Some (py "abc"))].

Definition case_row : raw_row :=
  [Field (py "name") (Some (py "H5 Flow"));
   Field (py "brand") (Some (py "NZXT"));
   Field (py "price") (Some (py "89.99"))].

(** The files of the examples; by name, [case.csv] comes before
    [cpu.csv], then [gpu.csv], then [memory.csv]. *)
Definition case_file : CsvFile :=
  {| stem := py "case"; contents := Ok [case_row] |}.

Definition gpu_file : CsvFile :=
  {| stem := py "gpu"; contents := Ok [rtx_row] |}.

Definition cpu_file : CsvFile :=
  {| stem := py "cpu"; contents := Ok [intel_row] |}.

Definition bad_cpu_file : CsvFile :=
  {| stem := py "cpu"; contents := Ok [intel_row; bad_price_row] |}.

(** Its second row is one a server with [in_stock] NOT NULL rejects. *)
Definition maybe_cpu_file : CsvFile :=
  {| stem := py "cpu"; contents := Ok [intel_row; maybe_row] |}.

Definition ram_file : CsvFile :=
  {| stem := py "memory";
     contents := Ok [[Field (py "name") (Some (py "DDR5 32GB"))]] |}.

(** The world a computation ends in, whichever way it ends. *)
Definition world_of {F A : Type} (o : outcome F A) : World F :=
  match o with
  | Returned _ w => w
  | Raised _ w => w
  end.

(** The same line twice in one file, imported into the empty database. *)
Definition rtx_imported : World (float ascii_externals) :=
  world_of (upsert_components ascii_externals (py "GPU") [rtx_row; rtx_row]
                              fresh_world).

(** A run over three files on the strict server: after the first file, and
    at the point where the second one fails. *)
Definition case_done : World (float strict_externals) :=
  world_of (import_files strict_externals 0 [case_file]
                         (at_loop_entry 3 fresh_world)).

Definition cpu_failed : World (float strict_externals) :=
  world_of (import_file strict_externals 1 maybe_cpu_file case_done).

(** One call on two rows, the second of which is sent twice. *)
Definition two_rows_imported : World (float ascii_externals) :=
  world_of (upsert_components ascii_externals (py "CPU") [intel_row; yes_row]
                              fresh_world).

(** A row with a [URL] column holding blanks only. *)
Definition blank_url_row_pre : raw_row :=
  [Field (py "name") (Some (py "Core i5"))].

Definition blank_url_row_post : raw_row :=
  [Field (py "brand") (Some (py "Intel"));
   Field (py "Socket") (Some (py "LGA1700"))].

(** ** Tactics *)

(** Unfolding of the two monads. *)
Ltac unfold_bind :=
  unfold mbind, mret, result_bind, result_ret, M_bind, M_ret in *.

(** Two different string constants. *)
Ltac py_neq := let E := fresh in intros E; vm_compute in E; discriminate E.

(** Closing a goal [l = r] by evaluating [l]. *)
Ltac vm_refl :=
  lazymatch goal with |- ?l = ?r => exact (@eq_refl _ r <: l = r) end.

(** Exposing the fields of a world built with the helpers above. *)
Ltac world_simpl :=
  unfold with_conn, says, set_pending, on_conn, tick, say, conn_commit;
  cbn [conn clock_reads console committed pending txn
       has_components_table closed].

(** ** Further notions used in the statements *)

(** The row has a name, so the loop keeps it. *)
Definition has_name (X : Externals) (raw : raw_row) : bool :=
  truthy (dict_get (normalize_raw X raw) (py "name")).

(** No white space at either end. *)
Definition trimmed (s : pystr) : Prop := strip s = s.

(** The columns of [components] an ON CONFLICT update leaves alone. *)
Definition identity_of {F : Type} (r : ComponentRow F) : pystr * pystr * pystr :=
  (id (columns r), category (columns r), name (columns r)).

(** The columns of [components] a statement brings, conflict or not. *)
Definition carries {F : Type} (r : ComponentRow F) (c : Component F) : Prop :=
  brand (columns r) = brand c /\
  price (columns r) = price c /\
  previous_price (columns r) = previous_price c /\
  image_url (columns r) = image_url c /\
  product_url (columns r) = product_url c /\
  in_stock (columns r) = in_stock c /\
  stock_units (columns r) = stock_units c /\
  last_updated (columns r) = last_updated c.

(** Two worlds that differ in what was printed only. *)
Definition same_database {F : Type} (w w' : World F) : Prop :=
  conn w = conn w' /\ clock_reads w = clock_reads w'.

(** Two computations that end the same way, in worlds that differ in what
    was printed only. *)
Definition same_outcome {F A : Type} (o o' : outcome F A) : Prop :=
  match o, o' with
  | Returned a w, Returned a' w' => a = a' /\ same_database w w'
  | Raised e w, Raised e' w' => e = e' /\ same_database w w'
  | _, _ => False
  end.

(** The number of lines of the files that could be read. *)
Definition rows_read (csv_files : list CsvFile) : nat :=
  foldr (fun f n =>
           match contents f with
           | Ok rows => (length rows + n)%nat
           | Raise _ => n
           end) 0%nat csv_files.

(** ** The earlier script, [dataset-script.py]

    The same loader before the category table, the stock aliases, the
    longer word lists, the table check and the [except] clause were added.
    [hash_component_id], [parse_csv] and [STANDARD_FIELDS] are the same
    text in both files and are shared here. *)

Module DatasetScript.

Definition ALIAS_MAP : gmap pystr pystr :=
  list_to_map (map (fun kv => (py kv.1, py kv.2))
    [("url", "product_url"); ("link", "product_url");
     ("image", "image_url"); ("img", "image_url");
     ("current_price", "price"); ("price_usd", "price");
     ("last_price", "previous_price")]%string).

Definition TRUE_WORDS : gset pystr :=
  list_to_set (map py ["true"; "t"; "1"; "yes"; "y"]%string).

Definition FALSE_WORDS : gset pystr :=
  list_to_set (map py ["false"; "f"; "0"; "no"; "n"]%string).

Definition normalize_field (X : Externals) (field_name : pystr) : pystr :=
  let field_name := py_lower X (strip field_name) in
  default field_name (ALIAS_MAP !! field_name).

Definition bool_from_value (X : Externals) (value : option pystr)
  : option bool :=
  match value with
  | None => None
  | Some value =>
      let value := py_lower X (strip value) in
      if bool_decide (value ∈ TRUE_WORDS) then Some true
      else if bool_decide (value ∈ FALSE_WORDS) then Some false
      else None
  end.

Definition normalize_item (X : Externals) (normalized : dict) (it : raw_item)
  : dict :=
  match it with
  | Field k v =>
      if truthy (Some k)
      then dict_set normalized (normalize_field X k) (strip <$> v)
      else normalized
  | Rest _ => normalized
  end.

Definition normalize_raw (X : Externals) (raw : raw_row) : dict :=
  foldl (normalize_item X) [] raw.

(** The body of [for raw in rows]. Here [product_url] is
    [normalized.get("product_url") or normalized.get("url")], stored as it
    is, and [or ""] is applied for the digest only. *)
Definition process_row (X : Externals) (now : Time) (category_slug : pystr)
    (raw : raw_row) : result (option (RowRecords (float X))) :=
  let normalized := normalize_raw X raw in
  let name := dict_get normalized (py "name") in
  let brand := dict_get normalized (py "brand") in
  if negb (truthy name) then mret None else
  let name := default [] name in
  let product_url :=
    py_or (dict_get normalized (py "product_url"))
          (dict_get normalized (py "url")) in
  component_id ←
    hash_component_id category_slug name
                      (default [] (py_or product_url (Some [])));
  price ← parse_if_present (py_float X) (dict_get normalized (py "price"));
  previous_price ←
    parse_if_present (py_float X) (dict_get normalized (py "previous_price"));
  let in_stock :=
    if truthy (dict_get normalized (py "in_stock"))
    then bool_from_value X (dict_get normalized (py "in_stock"))
    else Some true in
  stock_units ←
    parse_if_present (py_int X) (dict_get normalized (py "stock_units"));
  let component := {|
    id := component_id;
    category := category_slug;
    name := name;
    brand := brand;
    price := price;
    previous_price := previous_price;
    image_url := dict_get normalized (py "image_url");
    product_url := product_url;
    in_stock := in_stock;
    stock_units := default 0%Z stock_units;
    last_updated := now |} in
  mret (Some {| row_component := component;
                row_attrs := row_attributes component_id normalized;
                row_tag_records :=
                  tag_records component_id (row_tags category_slug brand) |}).

Fixpoint normalize_rows (X : Externals) (now : Time) (category_slug : pystr)
    (rows : list raw_row) (acc : Payloads (float X))
  : result (Payloads (float X)) :=
  match rows with
  | [] => Ok acc
  | raw :: rest =>
      match process_row X now category_slug raw with
      | Raise e => Raise e
      | Ok None => normalize_rows X now category_slug rest acc
      | Ok (Some r) => normalize_rows X now category_slug rest (append_row acc r)
      end
  end.

(** The three batches are sent whether or not they are empty, and nothing
    is printed. *)
Definition upsert_components (X : Externals) (category_slug : pystr)
    (rows : list raw_row) : M (float X) unit :=
  now ← read_utcnow X;
  p ← lift (normalize_rows X now category_slug rows no_payloads);
  execute_batch X (UpsertComponent <$> components_payload p);;
  execute_batch X (UpsertAttribute <$> attr_payload p);;
  execute_batch X (InsertTag <$> tag_payload p);;
  with_conn conn_commit.

(** The lines this script prints. *)
Inductive Line : Type :=
  | LineNoCsv
  | LineIngesting (stem category_slug : pystr)
  | LineDone.

(** The loop over the files: the exception that ended it, if any, the
    lines printed and the world. *)
Fixpoint import_files (X : Externals) (csv_files : list CsvFile)
    (out : list Line) (w : World (float X))
  : option exn * list Line * World (float X) :=
  match csv_files with
  | [] => (None, out, w)
  | f :: rest =>
      let category_slug := replace_char 45 95 (slugify X (stem f)) in
      let out := out ++ [LineIngesting (stem f) category_slug] in
      match contents f with
      | Raise e => (Some e, out, w)
      | Ok [] => import_files X rest out w
      | Ok rows =>
          match upsert_components X (py_upper X category_slug) rows w with
          | Raised e w' => (Some e, out, w')
          | Returned _ w' => import_files X rest out w'
          end
      end
  end.

(** [import_dataset]: a [try] with a [finally] and no [except]; an
    exception leaves the function, [Some e], after the connection is
    closed. *)
Definition import_dataset (X : Externals) (csv_files : list CsvFile)
    (w : World (float X)) : option exn * list Line * World (float X) :=
  match csv_files with
  | [] => (None, [LineNoCsv], on_conn conn_close w)
  | _ :: _ =>
      let '(e, out, w') := import_files X csv_files [] w in
      (e, match e with None => out ++ [LineDone] | Some _ => out end,
       on_conn conn_close w')
  end.

End DatasetScript.

(** A row the two scripts read differently: the column [Stock] is an
    alias of [in_stock] in the later one only. *)
Definition stock_row : raw_row :=
  [Field (py "name") (Some (py "Core i5"));
   Field (py "Stock") (Some (py "no"))].

(** Two lines of one file with the same name and no url, hence the same
    id. *)
Definition intel_again_row : raw_row :=
  [Field (py "name") (Some (py "Core i5"));
   Field (py "brand") (Some (py "INTEL"));
   Field (py "Socket") (Some (py "LGA1700"))].

Definition empty_file : CsvFile :=
  {| stem := py "fan"; contents := Ok [] |}.

(** The rows of a file the loop keeps. *)
Definition named_rows (X : Externals) (rows : list raw_row) : list raw_row :=
  List.filter (has_name X) rows.

Definition attribute_key_of (a : Attribute) : pystr * pystr :=
  (attr_component_id a, attribute_key a).

(** Every row of [t] is still in [t']: a component with the same [id],
    [category] and [name], an attribute key still bound, a tag unchanged. *)
Definition nothing_deleted {F : Type} (X : Externals) (t t' : Tables F) : Prop :=
  (forall k old,
     components t !! k = Some old ->
     exists row, components t' !! k = Some row /\
                 identity_of row = identity_of old) /\
  (forall k, is_Some (component_attributes t !! k) ->
             is_Some (component_attributes t' !! k)) /\
  (forall k g, component_tags t !! k = Some g ->
               component_tags t' !! k = Some g).

(** What the later script added to the tables of the earlier one. *)
Definition STOCK_ALIASES : list pystr := map py ["stock"; "available"]%string.

Definition NEW_STOCK_WORDS : list pystr :=
  map py ["available"; "in stock"; "out of stock"; "unavailable"]%string.


(** A row the two scripts read alike: no column named by a stock alias,
    and no stock word of the later list. *)
Definition read_alike (X : Externals) (raw : raw_row) : Prop :=
  (forall k v, Field k v ∈ raw -> k <> [] ->
               py_lower X (strip k) ∉ STOCK_ALIASES) /\
  (forall s, dict_get (normalize_raw X raw) (py "in_stock") = Some s ->
             py_lower X (strip s) ∉ NEW_STOCK_WORDS).


(** A row whose cells come with blanks around them. *)
Definition padded_row : raw_row :=
  [Field (py " Name ") (Some (py "  RTX 4090 "));
   Field (py "Brand") (Some (py " NVIDIA "));
   Field (py "URL") (Some (py " http://x/y "));
   Field (py "Memory") (Some (py " 24 GB "))].

(** Two lines for the same component in one file, imported into the
    empty database. *)
Definition intel_twice_imported : World (float ascii_externals) :=
  world_of (upsert_components ascii_externals (py "CPU")
                              [intel_row; intel_again_row] fresh_world).

(** A connection to a database where the schema was not loaded. *)
Definition no_schema_world {F : Type} : World F :=
  {| conn := {| committed := empty_tables; pending := empty_tables;
                txn := 0; has_components_table := false; closed := false |};
     clock_reads := 0;
     console := [] |}.

(** A run of the earlier script over three files: after the first file,
    and at the point where the second one fails. *)
Definition earlier_case_done
  : option exn * list DatasetScript.Line * World (float ascii_externals) :=
  DatasetScript.import_files ascii_externals [case_file] [] fresh_world.

Definition earlier_cpu_failed
  : option exn * list DatasetScript.Line * World (float ascii_externals) :=
  DatasetScript.import_files ascii_externals [bad_cpu_file]
                             earlier_case_done.1.2 earlier_case_done.2.

(** A key that is neither ["in_stock"] nor a stock alias. *)
Ltac not_stock_key :=
  first [ py_neq
        | unfold STOCK_ALIASES; cbn [map];
          let H := fresh in
          intros H;
          repeat (apply elem_of_cons in H as [H|H];
                  [vm_compute in H; discriminate H|]);
          inversion H ].

(** * Properties *)

(** ** The digest, against known values *)

Example sha1_abc :
  SHA1.hexdigest [97; 98; 99] = py "a9993e364706816aba3e25717850c26c9cd0d89d".
Proof. vm_compute. reflexivity. Qed.

Example sha1_empty :
  SHA1.hexdigest [] = py "da39a3ee5e6b4b0d3255bfef95601890afd80709".
Proof. vm_compute. reflexivity. Qed.

Example sha1_two_blocks :
  option_map SHA1.hexdigest
    (utf8_encode (py "The quick brown fox jumps over the lazy dog, and then the lazy dog jumps over the quick brown fox"))
  = Some (py "5a2558f64fd1099cd48401b63ede958b95655dc2").
Proof. vm_compute. reflexivity. Qed.

(** "café €" followed by U+1F600: one, two, three and four byte forms. *)
Example sha1_utf8 :
  option_map SHA1.hexdigest
    (utf8_encode [99; 97; 102; 0xE9; 32; 0x20AC; 32; 0x1F600])
  = Some (py "2969abe33612b0f033bbe8ba938fcb30c7b60758").
Proof. vm_compute. reflexivity. Qed.

Example utf8_surrogate : utf8_encode [97; 0xD800] = None.
Proof. reflexivity. Qed.

Example sha1_rtx :
  hash_component_id (py "GPU") (py "RTX 4090") (py "http://x/y")
  = Ok (py "5f70d0f4d1192d2ebfb7a29b4c1a10786ad1b7a6").
Proof. vm_compute. reflexivity. Qed.

Lemma hex32_length (w : N) : length (SHA1.hex32 w) = 8%nat.
Proof. reflexivity. Qed.

Lemma hexdigest_length (msg : list N) : length (SHA1.hexdigest msg) = 40%nat.
Proof.
  unfold SHA1.hexdigest.
  destruct (SHA1.digest msg) as [[[[h0 h1] h2] h3] h4].
  rewrite !length_app, !hex32_length. reflexivity.
Qed.

(** ** Dictionaries *)

Lemma dict_get_set (d : dict) (k k' : pystr) (v : option pystr) :
  dict_get (dict_set d k v) k' = if bool_decide (k = k') then v else dict_get d k'.
Proof.
  induction d as [|[k0 v0] d IH]; simpl.
  - reflexivity.
  - repeat (case_bool_decide; simpl); subst; try congruence.
Qed.

(** The comprehension takes the items of the row one after the other. *)
Lemma normalize_raw_snoc (X : Externals) (raw : raw_row) (it : raw_item) :
  normalize_raw X (raw ++ [it]) = normalize_item X (normalize_raw X raw) it.
Proof. unfold normalize_raw. apply foldl_snoc. Qed.

(** No column is ever filed under ["url"]: the alias table sends it to
    ["product_url"], so [normalized.get("url")] is always [None]. *)
Lemma normalize_field_not_url (X : Externals) (k : pystr) :
  normalize_field X k ≠ py "url".
Proof.
  unfold normalize_field.
  destruct (ALIAS_MAP !! py_lower X (strip k)) as [t|] eqn:E; simpl.
  - unfold ALIAS_MAP in E. apply elem_of_list_to_map_2 in E. simpl in E.
    repeat (apply elem_of_cons in E as [E|E]; [injection E as _ ->; discriminate|]).
    inversion E.
  - intros Hk. rewrite Hk in E. vm_compute in E. discriminate.
Qed.

Lemma normalize_raw_no_url (X : Externals) (raw : raw_row) :
  dict_get (normalize_raw X raw) (py "url") = None.
Proof.
  induction raw as [|it raw IH] using rev_ind.
  - reflexivity.
  - rewrite normalize_raw_snoc. destruct it as [k v|extra]; simpl; [|exact IH].
    destruct k; simpl; [exact IH|].
    rewrite dict_get_set. case_bool_decide as Hk; [|exact IH].
    exfalso. exact (normalize_field_not_url X _ Hk).
Qed.

(** *** Where a key sits after an assignment *)

Lemma dict_set_app (d1 d2 : dict) (k : pystr) (v : option pystr) :
  dict_set (d1 ++ d2) k v =
    if bool_decide (k ∈ d1.*1) then dict_set d1 k v ++ d2
    else d1 ++ dict_set d2 k v.
Proof.
  induction d1 as [|[k0 v0] d1 IH]; cbn [app dict_set fmap list_fmap fst].
  - rewrite bool_decide_eq_false_2 by (intros H; inversion H). reflexivity.
  - destruct (bool_decide (k0 = k)) eqn:Hk0.
    + apply bool_decide_eq_true in Hk0 as ->.
      rewrite bool_decide_eq_true_2 by apply list_elem_of_here. reflexivity.
    + apply bool_decide_eq_false in Hk0. rewrite IH.
      destruct (bool_decide (k ∈ d1.*1)) eqn:Hin.
      * apply bool_decide_eq_true in Hin.
        rewrite bool_decide_eq_true_2 by (apply list_elem_of_further; exact Hin).
        reflexivity.
      * apply bool_decide_eq_false in Hin.
        rewrite bool_decide_eq_false_2; [reflexivity|].
        intros [?|?]%elem_of_cons; [congruence|contradiction].
Qed.

Lemma dict_get_None_notin (d : dict) (k : pystr) :
  k ∉ d.*1 -> dict_get d k = None.
Proof.
  induction d as [|[k0 v0] d IH]; cbn [dict_get fmap list_fmap fst];
    intros Hk; [reflexivity|].
  apply not_elem_of_cons in Hk as [Hne Hk].
  rewrite bool_decide_eq_false_2 by congruence. auto.
Qed.

Lemma dict_get_app (d1 d2 : dict) (k : pystr) :
  dict_get (d1 ++ d2) k =
    if bool_decide (k ∈ d1.*1) then dict_get d1 k else dict_get d2 k.
Proof.
  induction d1 as [|[k0 v0] d1 IH]; cbn [app dict_get fmap list_fmap fst].
  - rewrite bool_decide_eq_false_2 by (intros H; inversion H). reflexivity.
  - destruct (bool_decide (k0 = k)) eqn:Hk0.
    + apply bool_decide_eq_true in Hk0 as ->.
      rewrite bool_decide_eq_true_2 by apply list_elem_of_here. reflexivity.
    + apply bool_decide_eq_false in Hk0. rewrite IH.
      destruct (bool_decide (k ∈ d1.*1)) eqn:Hin.
      * apply bool_decide_eq_true in Hin.
        rewrite bool_decide_eq_true_2 by (apply list_elem_of_further; exact Hin).
        reflexivity.
      * apply bool_decide_eq_false in Hin.
        rewrite bool_decide_eq_false_2; [reflexivity|].
        intros [?|?]%elem_of_cons; [congruence|contradiction].
Qed.

Lemma dict_get_insert_other (d1 d2 : dict) (K k : pystr) (v : option pystr) :
  k <> K -> dict_get (d1 ++ (K, v) :: d2) k = dict_get (d1 ++ d2) k.
Proof.
  intros Hk. rewrite !dict_get_app. cbn [dict_get].
  rewrite (bool_decide_eq_false_2 (K = k)) by congruence. reflexivity.
Qed.

Lemma dict_get_insert_same (d1 d2 : dict) (K : pystr) (v : option pystr) :
  K ∉ (d1 ++ d2).*1 -> dict_get (d1 ++ (K, v) :: d2) K = v.
Proof.
  intros HK. rewrite dict_get_app. rewrite fmap_app in HK.
  rewrite bool_decide_eq_false_2
    by (intros H; apply HK, elem_of_app; auto).
  cbn [dict_get]. rewrite bool_decide_eq_true_2; reflexivity.
Qed.

Lemma row_attributes_insert_standard (cid : pystr) (d1 d2 : dict) (K : pystr)
    (v : option pystr) :
  K ∈ STANDARD_FIELDS ->
  row_attributes cid (d1 ++ (K, v) :: d2) = row_attributes cid (d1 ++ d2).
Proof.
  intros HK. unfold row_attributes. rewrite !omap_app. cbn [omap list_omap].
  rewrite bool_decide_eq_true_2 by exact HK. reflexivity.
Qed.

Lemma inserted_key_set (K k : pystr) (v x : option pystr) (d d' : dict) :
  k <> K -> inserted_key K v d d' ->
  inserted_key K v (dict_set d k x) (dict_set d' k x).
Proof.
  intros Hk (d1 & d2 & -> & ->). rewrite !dict_set_app.
  destruct (bool_decide (k ∈ d1.*1)).
  - exists (dict_set d1 k x), d2. auto.
  - exists d1, (dict_set d2 k x). split; [reflexivity|].
    cbn [dict_set]. rewrite bool_decide_eq_false_2 by congruence. reflexivity.
Qed.

Lemma inserted_key_fresh (K : pystr) (v : option pystr) (d : dict) :
  K ∉ d.*1 -> inserted_key K v d (dict_set d K v).
Proof.
  intros HK. exists d, []. rewrite app_nil_r. split; [reflexivity|].
  induction d as [|[k0 v0] d IH]; cbn [dict_set app]; [reflexivity|].
  cbn [fmap list_fmap fst] in HK. apply not_elem_of_cons in HK as [Hne HK].
  rewrite bool_decide_eq_false_2 by congruence. rewrite IH by exact HK.
  reflexivity.
Qed.

Lemma dict_set_keys (d : dict) (k : pystr) (v : option pystr) (k' : pystr) :
  k' ∈ (dict_set d k v).*1 <-> k' = k \/ k' ∈ d.*1.
Proof.
  induction d as [|[k0 v0] d IH]; cbn [dict_set fmap list_fmap fst].
  - rewrite list_elem_of_singleton. split; [auto|].
    intros [?|H]; [assumption|inversion H].
  - case_bool_decide as Hk0; cbn [fmap list_fmap fst];
      rewrite !elem_of_cons; [subst; tauto|].
    rewrite IH. tauto.
Qed.

(** ** One row *)


Section Row.
Context (X : Externals).

Lemma parse_if_present_absent {A : Type} (parse : pystr -> option A)
    (v : option pystr) :
  truthy v = false -> parse_if_present parse v = Ok None.
Proof. unfold parse_if_present. intros ->. reflexivity. Qed.

Lemma parse_if_present_good {A : Type} (parse : pystr -> option A)
    (v : option pystr) (a : A) :
  truthy v = true -> parse (default [] v) = Some a ->
  parse_if_present parse v = Ok (Some a).
Proof.
  unfold parse_if_present, parse_or_raise. intros -> ->. reflexivity.
Qed.


(** What an accepted row is made of. *)
Lemma process_row_Some (now : Time) (category : pystr) (raw : raw_row)
    (r : RowRecords (float X)) :
  process_row X now category raw = Ok (Some r) ->
  let n := normalize_raw X raw in
  truthy (dict_get n (py "name")) = true /\
  exists cid pr pp su,
    hash_component_id category (default [] (dict_get n (py "name")))
                      (row_product_url n) = Ok cid /\
    parse_if_present (py_float X) (dict_get n (py "price")) = Ok pr /\
    parse_if_present (py_float X) (dict_get n (py "previous_price")) = Ok pp /\
    parse_if_present (py_int X) (dict_get n (py "stock_units")) = Ok su /\
    r = {| row_component := {|
             id := cid;
             category := category;
             name := default [] (dict_get n (py "name"));
             brand := dict_get n (py "brand");
             price := pr;
             previous_price := pp;
             image_url := dict_get n (py "image_url");
             product_url := if truthy (Some (row_product_url n))
                            then Some (row_product_url n) else None;
             in_stock := row_in_stock X n;
             stock_units := default 0%Z su;
             last_updated := now |};
           row_attrs := row_attributes cid n;
           row_tag_records :=
             tag_records cid (row_tags category (dict_get n (py "brand"))) |}.
Proof.
  intros H n. unfold process_row in H. fold n in H. unfold_bind.
  destruct (truthy (dict_get n (py "name"))) eqn:Hname; simpl in H;
    [|discriminate].
  split; [reflexivity|].
  destruct (hash_component_id _ _ _) as [cid|] eqn:Hid; [|discriminate].
  destruct (parse_if_present (py_float X) (dict_get n (py "price")))
    as [pr|] eqn:Hpr; [|discriminate].
  destruct (parse_if_present (py_float X) (dict_get n (py "previous_price")))
    as [pp|] eqn:Hpp; [|discriminate].
  destruct (parse_if_present (py_int X) (dict_get n (py "stock_units")))
    as [su|] eqn:Hsu; [|discriminate].
  exists cid, pr, pp, su. repeat split. injection H as <-. reflexivity.
Qed.

(** A row without a name is passed over before anything can raise. *)
Lemma process_row_no_name (now : Time) (category : pystr) (raw : raw_row) :
  truthy (dict_get (normalize_raw X raw) (py "name")) = false ->
  process_row X now category raw = Ok None.
Proof. unfold process_row. intros ->. reflexivity. Qed.

Lemma hash_component_id_Ok (category name url : pystr) (cid : pystr) :
  hash_component_id category name url = Ok cid <->
  exists bytes,
    utf8_encode (category ++ py "|" ++ name ++ py "|" ++ url) = Some bytes /\
    cid = SHA1.hexdigest bytes.
Proof.
  unfold hash_component_id.
  destruct (utf8_encode _) as [bytes|]; split.
  - intros [= <-]. eauto.
  - intros (b & [= <-] & ->). reflexivity.
  - discriminate.
  - intros (b & [=] & _).
Qed.

Lemma product_url_field (u : pystr) :
  default [] (if truthy (Some u) then Some u else None) = u.
Proof. destruct u; reflexivity. Qed.

Lemma process_row_id (now : Time) (cat : pystr) (raw : raw_row)
    (r : RowRecords (float X)) :
  process_row X now cat raw = Ok (Some r) ->
  category (row_component r) = cat /\
  hash_component_id cat (name (row_component r))
                    (default [] (product_url (row_component r)))
    = Ok (id (row_component r)).
Proof.
  intros H.
  apply process_row_Some in H
    as (_ & cid & pr & pp & su & Hid & _ & _ & _ & ->).
  cbn [row_component id category name product_url].
  rewrite product_url_field. auto.
Qed.

(** C1. The id of every component the loop builds is the hexadecimal
    SHA-1 digest (forty digits, 160 bits) of the UTF-8 encoding of
    ["{category}|{name}|{product_url}"], where the three parts are the
    component's own fields and a null [product_url] counts as the empty
    string. *)
Theorem component_id_is_sha1_of_triple (now : Time) (cat : pystr)
    (raw : raw_row) (r : RowRecords (float X)) :
  process_row X now cat raw = Ok (Some r) ->
  let c := row_component r in
  exists bytes,
    utf8_encode (category c ++ py "|" ++ name c ++ py "|"
                 ++ default [] (product_url c)) = Some bytes /\
    id c = SHA1.hexdigest bytes /\
    length (id c) = 40%nat /\
    hash_component_id (category c) (name c) (default [] (product_url c))
      = Ok (id c).
Proof.
  intros H c. subst c.
  apply process_row_id in H as [-> Hid].
  pose proof Hid as Hid'.
  apply hash_component_id_Ok in Hid' as (bytes & Hb & Heq).
  exists bytes. rewrite Heq. repeat split; auto using hexdigest_length.
  rewrite <- Heq. exact Hid.
Qed.

(** Same triple, same id: across rows, files, times and runs. *)
Corollary component_id_deterministic (now now' : Time) (cat cat' : pystr)
    (raw raw' : raw_row) (r r' : RowRecords (float X)) :
  process_row X now cat raw = Ok (Some r) ->
  process_row X now' cat' raw' = Ok (Some r') ->
  category (row_component r) = category (row_component r') ->
  name (row_component r) = name (row_component r') ->
  product_url (row_component r) = product_url (row_component r') ->
  id (row_component r) = id (row_component r').
Proof.
  intros H H' Hc Hn Hu.
  apply process_row_id in H as [Hcat H].
  apply process_row_id in H' as [Hcat' H'].
  rewrite <- Hcat, Hc, Hcat', Hn, Hu in H. congruence.
Qed.

(** *** [in_stock] *)

Lemma true_false_words_disjoint (w : pystr) :
  w ∈ TRUE_WORDS -> w ∈ FALSE_WORDS -> False.
Proof.
  unfold TRUE_WORDS, FALSE_WORDS. rewrite !elem_of_list_to_set.
  cbn [map]. intros Ht Hf.
  repeat (apply elem_of_cons in Ht as [->|Ht];
          [clear -Hf;
           repeat (apply elem_of_cons in Hf as [Hf|Hf]; [discriminate Hf|]);
           inversion Hf|]).
  inversion Ht.
Qed.

(** C2, as the code has it. The [in_stock] field of an accepted row:
    [true] when the column is absent or empty; otherwise the trimmed,
    lower-cased value is looked up, an affirmative word gives [true], a
    negative word gives [false], and anything else gives null, which is
    what the component then carries. *)
Theorem in_stock_coercion (now : Time) (cat : pystr) (raw : raw_row)
    (r : RowRecords (float X)) :
  process_row X now cat raw = Ok (Some r) ->
  let v := dict_get (normalize_raw X raw) (py "in_stock") in
  let word := py_lower X (strip (default [] v)) in
  (truthy v = false -> in_stock (row_component r) = Some true) /\
  (truthy v = true -> word ∈ TRUE_WORDS ->
     in_stock (row_component r) = Some true) /\
  (truthy v = true -> word ∈ FALSE_WORDS ->
     in_stock (row_component r) = Some false) /\
  (truthy v = true -> word ∉ TRUE_WORDS -> word ∉ FALSE_WORDS ->
     in_stock (row_component r) = None).
Proof.
  intros H v word.
  apply process_row_Some in H
    as (_ & cid & pr & pp & su & _ & _ & _ & _ & ->).
  cbn [row_component in_stock]. unfold row_in_stock. fold v.
  destruct v as [[|c s]|] eqn:Hv; cbn [truthy];
    try (repeat split; (reflexivity || discriminate)).
  cbn [bool_from_value default] in *. fold word.
  split; [discriminate|]. repeat split; intros _.
  - intros Ht. rewrite bool_decide_eq_true_2 by exact Ht. reflexivity.
  - intros Hf.
    rewrite bool_decide_eq_false_2
      by (intros Ht; exact (true_false_words_disjoint _ Ht Hf)).
    rewrite bool_decide_eq_true_2 by exact Hf. reflexivity.
  - intros Ht Hf. rewrite !bool_decide_eq_false_2 by assumption.
    reflexivity.
Qed.

(** *** Tags *)

Lemma row_tags_elements (cat : pystr) (b : option pystr) :
  elements (row_tags cat b) ≡ₚ
    if truthy b && negb (bool_decide (b = Some cat))
    then [default [] b; cat] else [cat].
Proof.
  unfold row_tags.
  destruct b as [[|c s]|]; cbn [truthy andb default];
    rewrite ?(right_id_L ∅ (∪)), ?elements_singleton; try reflexivity.
  case_bool_decide as Hb; cbn [negb].
  - injection Hb as <-. rewrite (idemp_L (∪)), elements_singleton.
    reflexivity.
  - rewrite elements_union_singleton
      by (intros Hc%elem_of_singleton; apply Hb; rewrite Hc; reflexivity).
    rewrite elements_singleton. apply perm_swap.
Qed.

(** C8. The tag records of an accepted row are, up to the iteration
    order of the set, the brand and the category when the brand is
    present, non-empty and different from the category, and the category
    alone otherwise; they are never repeated and never more than two. *)
Theorem row_tags_are_brand_and_category (now : Time) (cat : pystr)
    (raw : raw_row) (r : RowRecords (float X)) :
  process_row X now cat raw = Ok (Some r) ->
  let c := row_component r in
  let mk t := {| tag_component_id := id c; tag := t |} in
  row_tag_records r ≡ₚ
    (if truthy (brand c) && negb (bool_decide (brand c = Some cat))
     then [mk (default [] (brand c)); mk cat] else [mk cat]) /\
  NoDup (row_tag_records r) /\
  (forall g, g ∈ row_tag_records r <->
     tag_component_id g = id c /\
     (tag g = cat \/ (truthy (brand c) = true /\ Some (tag g) = brand c))).
Proof.
  intros H c mk. subst c mk.
  apply process_row_Some in H
    as (_ & cid & pr & pp & su & _ & _ & _ & _ & ->).
  cbn [row_component row_tag_records id brand].
  set (b := dict_get (normalize_raw X raw) (py "brand")).
  assert (Hperm : tag_records cid (row_tags cat b) ≡ₚ
            (fun t => {| tag_component_id := cid; tag := t |}) <$>
            (if truthy b && negb (bool_decide (b = Some cat))
             then [default [] b; cat] else [cat])).
  { unfold tag_records. rewrite row_tags_elements. reflexivity. }
  split; [|split].
  - rewrite Hperm. destruct (truthy b && _); reflexivity.
  - unfold tag_records. apply NoDup_fmap_2; [|apply NoDup_elements].
    intros t t' [=]. assumption.
  - intros [gid gt]. cbn [tag_component_id tag].
    unfold tag_records, row_tags. rewrite list_elem_of_fmap.
    setoid_rewrite elem_of_elements.
    split.
    + intros (t & [= -> ->] & Ht). split; [reflexivity|].
      apply elem_of_union in Ht as [Ht%elem_of_singleton|Ht]; [auto|].
      destruct b as [[|c s]|]; cbn [truthy default] in *;
        try (apply elem_of_empty in Ht; contradiction).
      apply elem_of_union in Ht as [->%elem_of_singleton|Ht]; [auto|].
      apply elem_of_empty in Ht. contradiction.
    + intros [-> Ht]. exists gt. split; [reflexivity|].
      apply elem_of_union.
      destruct Ht as [->|[Hb Ht]]; [left; apply elem_of_singleton; auto|].
      right. rewrite Hb, <- Ht. cbn [default].
      apply elem_of_union. left. apply elem_of_singleton. reflexivity.
Qed.

(** *** Attribute and tag records point at their own row *)

Lemma process_row_refs (now : Time) (cat : pystr) (raw : raw_row)
    (r : RowRecords (float X)) :
  process_row X now cat raw = Ok (Some r) ->
  (forall a, a ∈ row_attrs r -> attr_component_id a = id (row_component r)) /\
  (forall g, g ∈ row_tag_records r ->
     tag_component_id g = id (row_component r)).
Proof.
  intros H.
  apply process_row_Some in H
    as (_ & cid & pr & pp & su & _ & _ & _ & _ & ->).
  cbn [row_component row_attrs row_tag_records id]. split.
  - intros a Ha. unfold row_attributes in Ha.
    apply list_elem_of_omap in Ha as ([k v] & _ & Hkv).
    destruct (_ || _); [discriminate|]. injection Hkv as <-. reflexivity.
  - intros g Hg. unfold tag_records in Hg.
    apply list_elem_of_fmap in Hg as (t & -> & _). reflexivity.
Qed.

Lemma append_row_closed (now : Time) (cat : pystr) (raw : raw_row)
    (r : RowRecords (float X)) (acc : Payloads (float X)) :
  process_row X now cat raw = Ok (Some r) ->
  referentially_closed acc -> referentially_closed (append_row acc r).
Proof.
  intros H [Ha Hg]. apply process_row_refs in H as [Hra Hrg].
  split; cbn [append_row attr_payload tag_payload components_payload].
  - intros a [Hin|Hin]%elem_of_app.
    + destruct (Ha a Hin) as (c & Hc & Hid). exists c.
      split; [apply elem_of_app; auto|exact Hid].
    + exists (row_component r). split; [|symmetry; auto].
      apply elem_of_app. right. apply list_elem_of_singleton. reflexivity.
  - intros g [Hin|Hin]%elem_of_app.
    + destruct (Hg g Hin) as (c & Hc & Hid). exists c.
      split; [apply elem_of_app; auto|exact Hid].
    + exists (row_component r). split; [|symmetry; auto].
      apply elem_of_app. right. apply list_elem_of_singleton. reflexivity.
Qed.

Lemma normalize_rows_closed (now : Time) (cat : pystr) (rows : list raw_row) :
  forall acc p,
    referentially_closed acc ->
    normalize_rows X now cat rows acc = Ok p ->
    referentially_closed p.
Proof.
  induction rows as [|raw rows IH]; intros acc p Hacc H; cbn in H.
  - injection H as <-. exact Hacc.
  - destruct (process_row X now cat raw) as [[r|]|e] eqn:Hrow.
    + eapply IH; [|exact H]. eapply append_row_closed; eauto.
    + eapply IH; eauto.
    + discriminate.
Qed.

(** C9. In the three lists one call builds from a file, every attribute
    record and every tag record carries the id of a component record of
    the same lists. *)
Theorem payloads_referentially_closed (now : Time) (cat : pystr)
    (rows : list raw_row) (p : Payloads (float X)) :
  normalize_rows X now cat rows no_payloads = Ok p ->
  (forall a, a ∈ attr_payload p ->
     exists c, c ∈ components_payload p /\ id c = attr_component_id a) /\
  (forall g, g ∈ tag_payload p ->
     exists c, c ∈ components_payload p /\ id c = tag_component_id g).
Proof.
  intros H. eapply normalize_rows_closed; [|exact H].
  split; intros x Hx; inversion Hx.
Qed.

(** *** A column that is there but empty *)

Lemma normalize_raw_app (pre post : raw_row) :
  normalize_raw X (pre ++ post)
  = foldl (normalize_item X) (normalize_raw X pre) post.
Proof. unfold normalize_raw. apply foldl_app. Qed.

Lemma normalize_item_keys (K : pystr) (d : dict) (it : raw_item) :
  item_key X it <> Some K -> K ∉ d.*1 -> K ∉ (normalize_item X d it).*1.
Proof.
  destruct it as [k v|extra]; cbn [item_key normalize_item]; [|auto].
  destruct (truthy (Some k)); [|auto].
  intros Hk HK [->|Hin]%dict_set_keys; [apply Hk|apply HK]; auto.
Qed.

Lemma foldl_items_keys (K : pystr) (post : raw_row) :
  forall d,
    (forall it, it ∈ post -> item_key X it <> Some K) ->
    K ∉ d.*1 -> K ∉ (foldl (normalize_item X) d post).*1.
Proof.
  induction post as [|it post IH]; intros d Hpost HK; cbn [foldl].
  - exact HK.
  - apply IH.
    + intros it' Hit'. apply Hpost. apply list_elem_of_further, Hit'.
    + apply normalize_item_keys; [|exact HK].
      apply Hpost. apply list_elem_of_here.
Qed.

Lemma foldl_items_inserted (K : pystr) (v : option pystr)
    (post : raw_row) :
  forall d d',
    (forall it, it ∈ post -> item_key X it <> Some K) ->
    inserted_key K v d d' ->
    inserted_key K v (foldl (normalize_item X) d post)
                     (foldl (normalize_item X) d' post).
Proof.
  induction post as [|it post IH]; intros d d' Hpost Hins; cbn [foldl].
  - exact Hins.
  - apply IH.
    + intros it' Hit'. apply Hpost. apply list_elem_of_further, Hit'.
    + assert (Hit : item_key X it <> Some K)
        by (apply Hpost; apply list_elem_of_here).
      destruct it as [k x|extra]; cbn [item_key normalize_item] in *;
        [|exact Hins].
      destruct (truthy (Some k)); [|exact Hins].
      apply inserted_key_set; [congruence|exact Hins].
Qed.

(** The dictionary of a row with one more column, new and kept, is the
    dictionary of the row without it with that one key put in. *)
Lemma normalize_raw_extra_column (pre post : raw_row) (k : pystr)
    (v : option pystr) :
  k <> [] ->
  (forall it, it ∈ pre ++ post -> item_key X it <> Some (normalize_field X k)) ->
  exists d1 d2,
    normalize_raw X (pre ++ post) = d1 ++ d2 /\
    normalize_raw X (pre ++ Field k v :: post)
      = d1 ++ (normalize_field X k, strip <$> v) :: d2 /\
    normalize_field X k ∉ (d1 ++ d2).*1.
Proof.
  intros Hk Hnone. set (K := normalize_field X k) in *.
  assert (Hpre : K ∉ (normalize_raw X pre).*1).
  { apply foldl_items_keys; [|intros H; inversion H].
    intros it Hit. apply Hnone, elem_of_app. auto. }
  assert (Hpost : forall it, it ∈ post -> item_key X it <> Some K).
  { intros it Hit. apply Hnone, elem_of_app. auto. }
  assert (Hall : K ∉ (normalize_raw X (pre ++ post)).*1).
  { rewrite normalize_raw_app. apply foldl_items_keys; assumption. }
  destruct (foldl_items_inserted K (strip <$> v) post (normalize_raw X pre)
              (dict_set (normalize_raw X pre) K (strip <$> v)) Hpost)
    as (d1 & d2 & Hd & Hd').
  { apply inserted_key_fresh, Hpre. }
  rewrite <- normalize_raw_app in Hd.
  exists d1, d2. rewrite <- Hd. repeat split; [|exact Hall].
  rewrite normalize_raw_app. cbn [foldl normalize_item].
  destruct k; [contradiction|]. cbn [truthy]. exact Hd'.
Qed.

(** C10. A row whose [product_url] column is there but empty (or whose
    cell is missing) and the same row without that column give the same
    records: the stored [product_url] is null and the id is the digest
    taken with the empty string in the place of the url. *)
Theorem empty_product_url_like_absent (now : Time) (cat : pystr)
    (pre post : raw_row) (k : pystr) (v : option pystr) :
  k <> [] ->
  normalize_field X k = py "product_url" ->
  truthy (strip <$> v) = false ->
  (forall it, it ∈ pre ++ post -> item_key X it <> Some (py "product_url")) ->
  process_row X now cat (pre ++ Field k v :: post)
    = process_row X now cat (pre ++ post) /\
  forall r, process_row X now cat (pre ++ post) = Ok (Some r) ->
    product_url (row_component r) = None /\
    hash_component_id cat (name (row_component r)) []
      = Ok (id (row_component r)).
Proof.
  intros Hk HK Hv Hnone.
  destruct (normalize_raw_extra_column pre post k v Hk)
    as (d1 & d2 & Hn & Hn' & Hfresh); [rewrite HK; exact Hnone|].
  rewrite HK in Hn', Hfresh.
  assert (Habs : dict_get (normalize_raw X (pre ++ post)) (py "product_url")
                 = None).
  { rewrite Hn. apply dict_get_None_notin, Hfresh. }
  assert (Hurl : row_product_url (normalize_raw X (pre ++ post)) = []).
  { unfold row_product_url. rewrite Habs, normalize_raw_no_url. reflexivity. }
  split.
  - set (n := normalize_raw X (pre ++ post)) in *.
    set (n' := normalize_raw X (pre ++ Field k v :: post)) in *.
    assert (Hget : forall key, key <> py "product_url" ->
              dict_get n' key = dict_get n key).
    { intros key Hkey. rewrite Hn', Hn.
      apply dict_get_insert_other, Hkey. }
    assert (Hurl' : row_product_url n' = []).
    { unfold row_product_url. rewrite Hn' at 1.
      rewrite dict_get_insert_same by exact Hfresh.
      unfold n'. rewrite normalize_raw_no_url.
      unfold py_or. rewrite Hv. reflexivity. }
    assert (Hattrs : forall cid, row_attributes cid n' = row_attributes cid n).
    { intros cid. rewrite Hn', Hn.
      apply row_attributes_insert_standard. vm_compute. reflexivity. }
    unfold process_row. cbv zeta. fold n n'. unfold_bind.
    rewrite (Hget (py "name")) by py_neq.
    destruct (truthy (dict_get n (py "name"))); cbn [negb]; [|reflexivity].
    rewrite Hurl', Hurl.
    destruct (hash_component_id _ _ _) as [cid|]; [|reflexivity].
    rewrite (Hget (py "price")) by py_neq.
    destruct (parse_if_present _ _) as [pr|]; [|reflexivity].
    rewrite (Hget (py "previous_price")) by py_neq.
    destruct (parse_if_present _ _) as [pp|]; [|reflexivity].
    rewrite (Hget (py "stock_units")) by py_neq.
    destruct (parse_if_present _ _) as [su|]; [|reflexivity].
    unfold row_in_stock.
    rewrite (Hget (py "brand")), (Hget (py "image_url")),
      (Hget (py "in_stock")), Hattrs by py_neq.
    reflexivity.
  - intros r Hr.
    apply process_row_Some in Hr
      as (_ & cid & pr & pp & su & Hid & _ & _ & _ & ->).
    cbn [row_component product_url name id]. rewrite Hurl in *.
    split; [reflexivity|exact Hid].
Qed.

(** *** Prices *)



(** *** The loop over the rows *)

Lemma normalize_rows_skip (now : Time) (cat : pystr) (raw : raw_row)
    (rows1 rows2 : list raw_row) :
  process_row X now cat raw = Ok None ->
  forall acc,
    normalize_rows X now cat (rows1 ++ raw :: rows2) acc
    = normalize_rows X now cat (rows1 ++ rows2) acc.
Proof.
  intros Hraw. induction rows1 as [|r0 rows1 IH]; intros acc;
    cbn [app normalize_rows].
  - rewrite Hraw. reflexivity.
  - destruct (process_row X now cat r0) as [[r|]|e]; auto.
Qed.


(** The components of one call all carry the time the call read. *)
Lemma normalize_rows_last_updated (now : Time) (cat : pystr)
    (rows : list raw_row) :
  forall acc p,
    (forall c, c ∈ components_payload acc -> last_updated c = now) ->
    normalize_rows X now cat rows acc = Ok p ->
    forall c, c ∈ components_payload p -> last_updated c = now.
Proof.
  induction rows as [|raw rows IH]; intros acc p Hacc H; cbn in H.
  - injection H as <-. exact Hacc.
  - destruct (process_row X now cat raw) as [[r|]|e] eqn:Hrow;
      [| eapply IH; eauto | discriminate].
    eapply IH; [|exact H].
    intros c [Hc|Hc]%elem_of_app; [auto|].
    apply list_elem_of_singleton in Hc as ->.
    apply process_row_Some in Hrow
      as (_ & cid & pr & pp & su & _ & _ & _ & _ & ->).
    reflexivity.
Qed.

End Row.

(** ** The tables *)

Section Tables.
Context (X : Externals).

Lemma apply_components (nd : Time) (cs : list (Component (float X))) :
  forall t,
    let t' := apply_all X nd t (UpsertComponent <$> cs) in
    components t' = foldl (upsert_into nd) (components t) cs /\
    component_attributes t' = component_attributes t /\
    component_tags t' = component_tags t.
Proof.
  unfold apply_all.
  induction cs as [|c cs IH]; intros t; cbn [fmap list_fmap foldl];
    [auto|].
  destruct (IH (apply_statement X nd t (UpsertComponent c))) as (-> & -> & ->).
  auto.
Qed.

Lemma apply_attributes (nd : Time) (l : list Attribute) :
  forall t,
    let t' := apply_all X nd t (UpsertAttribute <$> l) in
    components t' = components t /\
    component_attributes t' = foldl set_attribute (component_attributes t) l /\
    component_tags t' = component_tags t.
Proof.
  unfold apply_all.
  induction l as [|a l IH]; intros t; cbn [fmap list_fmap foldl]; [auto|].
  destruct (IH (apply_statement X nd t (UpsertAttribute a))) as (-> & -> & ->).
  auto.
Qed.

Lemma apply_tags (nd : Time) (l : list Tag) :
  forall t,
    let t' := apply_all X nd t (InsertTag <$> l) in
    components t' = components t /\
    component_attributes t' = component_attributes t /\
    component_tags t' = foldl (add_tag X) (component_tags t) l.
Proof.
  unfold apply_all.
  induction l as [|g l IH]; intros t; cbn [fmap list_fmap foldl]; [auto|].
  destruct (IH (apply_statement X nd t (InsertTag g))) as (-> & -> & ->).
  auto.
Qed.

(** The tables after all the statements of one call. *)
Lemma apply_statements (nd : Time) (t : Tables (float X))
    (p : Payloads (float X)) :
  let t' := apply_all X nd t (statements p) in
  components t' = foldl (upsert_into nd) (components t) (components_payload p) /\
  component_attributes t'
    = foldl set_attribute (component_attributes t) (attr_payload p) /\
  component_tags t' = foldl (add_tag X) (component_tags t) (tag_payload p).
Proof.
  unfold statements, apply_all. rewrite !foldl_app.
  fold (apply_all X nd t (UpsertComponent <$> components_payload p)).
  destruct (apply_components nd (components_payload p) t) as (Hc & Ha & Hg).
  set (t1 := apply_all X nd t _) in *.
  fold (apply_all X nd t1 (UpsertAttribute <$> attr_payload p)).
  destruct (apply_attributes nd (attr_payload p) t1) as (Hc2 & Ha2 & Hg2).
  set (t2 := apply_all X nd t1 _) in *.
  fold (apply_all X nd t2 (InsertTag <$> tag_payload p)).
  destruct (apply_tags nd (tag_payload p) t2) as (Hc3 & Ha3 & Hg3).
  cbv zeta in *. rewrite Hc3, Ha3, Hg3, Hc2, Ha2, Hg2, Hc, Ha, Hg. auto.
Qed.

(** *** Key by key *)

Lemma lookup_foldl_upsert (nd : Time) (k : pystr)
    (cs : list (Component (float X))) :
  forall m : gmap pystr (ComponentRow (float X)),
    foldl (upsert_into nd) m cs !! k
    = foldl (component_step nd k) (m !! k) cs.
Proof.
  induction cs as [|c cs IH]; intros m; cbn [foldl]; [reflexivity|].
  rewrite IH. f_equal. unfold upsert_into, component_step.
  rewrite lookup_insert. case_decide as Hk.
  - rewrite bool_decide_eq_true_2 by exact Hk. rewrite Hk. reflexivity.
  - rewrite bool_decide_eq_false_2 by exact Hk. reflexivity.
Qed.

Lemma lookup_foldl_attribute (k : pystr * pystr) (l : list Attribute) :
  forall m : gmap (pystr * pystr) pystr,
    foldl set_attribute m l !! k = foldl (attribute_step k) (m !! k) l.
Proof.
  induction l as [|a l IH]; intros m; cbn [foldl]; [reflexivity|].
  rewrite IH. f_equal. unfold set_attribute, attribute_step.
  rewrite lookup_insert. case_decide as Hk.
  - rewrite bool_decide_eq_true_2 by exact Hk. reflexivity.
  - rewrite bool_decide_eq_false_2 by exact Hk. reflexivity.
Qed.

Lemma lookup_foldl_tag (k : pystr * pystr) (l : list Tag) :
  forall m : gmap (pystr * pystr) pystr,
    foldl (add_tag X) m l !! k = foldl (tag_step X k) (m !! k) l.
Proof.
  induction l as [|g l IH]; intros m; cbn [foldl]; [reflexivity|].
  rewrite IH. f_equal. unfold add_tag, tag_step.
  case_bool_decide as Hk.
  - rewrite Hk. destruct (m !! k) eqn:Hm; [exact Hm|].
    apply lookup_insert_eq.
  - destruct (m !! tag_key X g); [reflexivity|].
    apply lookup_insert_ne, Hk.
Qed.

(** *** Sending the same statements again *)

Lemma component_steps_identity (nd : Time) (k : pystr)
    (cs : list (Component (float X))) :
  forall r, exists r',
    foldl (component_step nd k) (Some r) cs = Some r' /\ same_identity r r'.
Proof.
  induction cs as [|c cs IH]; intros r; cbn [foldl].
  - exists r. repeat split.
  - unfold component_step at 2. destruct (bool_decide (id c = k)).
    + cbn [upsert_row].
      destruct (IH (on_conflict_update nd r c)) as (r' & -> & Hid).
      exists r'. split; [reflexivity|]. exact Hid.
    + apply IH.
Qed.

Lemma without_times_upsert (nd : Time) (o : option (ComponentRow (float X)))
    (c : Component (float X)) :
  without_times (upsert_row nd o c)
  = without_times (on_conflict_update 0 (upsert_row nd o c) c).
Proof. destruct o; reflexivity. Qed.

Lemma without_times_update (nd' t' : Time)
    (r r' : ComponentRow (float X)) (c : Component (float X)) :
  same_identity r r' ->
  without_times (on_conflict_update nd' r' (at_time t' c))
  = without_times (on_conflict_update 0 r c).
Proof.
  intros (Hi & Hc & Hn). unfold without_times, on_conflict_update.
  cbn. rewrite Hi, Hc, Hn. reflexivity.
Qed.

Lemma component_steps_again (nd nd' t' : Time) (k : pystr)
    (cs : list (Component (float X))) :
  forall o,
    without_times <$>
      foldl (component_step nd' k) (foldl (component_step nd k) o cs)
            (at_time t' <$> cs)
    = without_times <$> foldl (component_step nd k) o cs.
Proof.
  induction cs as [|c cs IH] using rev_ind; intros o; [reflexivity|].
  rewrite fmap_app, !foldl_snoc. cbn [fmap list_fmap].
  rewrite foldl_snoc.
  assert (Hs : forall d o, component_step d k o c
            = if bool_decide (id c = k) then Some (upsert_row d o c) else o)
    by reflexivity.
  assert (Hs' : forall d o, component_step d k o (at_time t' c)
            = if bool_decide (id c = k)
              then Some (upsert_row d o (at_time t' c)) else o)
    by reflexivity.
  rewrite Hs, Hs'.
  destruct (bool_decide (id c = k)); [|apply IH].
  cbn [fmap option_fmap option_map]. f_equal.
  set (r := upsert_row nd (foldl (component_step nd k) o cs) c).
  destruct (component_steps_identity nd' k (at_time t' <$> cs) r)
    as (r' & -> & Hid).
  cbn [upsert_row].
  rewrite (without_times_update nd' t' r r' c Hid).
  symmetry. apply without_times_upsert.
Qed.

Lemma attribute_steps_again (k : pystr * pystr) (l : list Attribute) :
  forall o,
    foldl (attribute_step k) (foldl (attribute_step k) o l) l
    = foldl (attribute_step k) o l.
Proof.
  induction l as [|a l IH] using rev_ind; intros o; [reflexivity|].
  rewrite !foldl_snoc.
  assert (Hs : forall o, attribute_step k o a
            = if bool_decide ((attr_component_id a, attribute_key a) = k)
              then Some (attribute_value a) else o)
    by reflexivity.
  rewrite !Hs. destruct (bool_decide _); [reflexivity|apply IH].
Qed.

Lemma tag_steps_Some (k : pystr * pystr) (l : list Tag) (x : pystr) :
  foldl (tag_step X k) (Some x) l = Some x.
Proof.
  induction l as [|g l IH]; cbn [foldl]; [reflexivity|].
  unfold tag_step at 2. destruct (bool_decide _); exact IH.
Qed.

Lemma tag_steps_again (k : pystr * pystr) (l : list Tag) :
  forall o,
    foldl (tag_step X k) (foldl (tag_step X k) o l) l
    = foldl (tag_step X k) o l.
Proof.
  induction l as [|g l IH]; intros o; cbn [foldl]; [reflexivity|].
  set (o1 := tag_step X k o g).
  assert (Hfix : tag_step X k (foldl (tag_step X k) o1 l) g
                 = foldl (tag_step X k) o1 l).
  { unfold tag_step at 1. case_bool_decide as Hk; [|reflexivity].
    assert (Ho1 : is_Some o1).
    { unfold o1, tag_step. rewrite bool_decide_eq_true_2 by exact Hk.
      destruct o; eauto. }
    destruct Ho1 as [x ->]. rewrite tag_steps_Some. reflexivity. }
  rewrite Hfix. apply IH.
Qed.

Lemma resend_components (nd nd' t' : Time)
    (cs : list (Component (float X)))
    (m : gmap pystr (ComponentRow (float X))) :
  without_times <$>
    foldl (upsert_into nd') (foldl (upsert_into nd) m cs) (at_time t' <$> cs)
  = without_times <$> foldl (upsert_into nd) m cs.
Proof.
  apply map_eq. intros k.
  rewrite !lookup_fmap, !lookup_foldl_upsert. apply component_steps_again.
Qed.

Lemma resend_attributes (l : list Attribute)
    (m : gmap (pystr * pystr) pystr) :
  foldl set_attribute (foldl set_attribute m l) l = foldl set_attribute m l.
Proof.
  apply map_eq. intros k.
  rewrite !lookup_foldl_attribute. apply attribute_steps_again.
Qed.

Lemma resend_tags (l : list Tag) (m : gmap (pystr * pystr) pystr) :
  foldl (add_tag X) (foldl (add_tag X) m l) l = foldl (add_tag X) m l.
Proof.
  apply map_eq. intros k.
  rewrite !lookup_foldl_tag. apply tag_steps_again.
Qed.

(** *** The same rows at another time *)

Lemma process_row_at_time (now t' : Time) (cat : pystr) (raw : raw_row) :
  process_row X t' cat raw
  = match process_row X now cat raw with
    | Ok (Some r) => Ok (Some (records_at_time t' r))
    | Ok None => Ok None
    | Raise e => Raise e
    end.
Proof.
  unfold process_row. cbv zeta. unfold_bind.
  destruct (negb _); [reflexivity|].
  destruct (hash_component_id _ _ _); [|reflexivity].
  destruct (parse_if_present _ _); [|reflexivity].
  destruct (parse_if_present _ _); [|reflexivity].
  destruct (parse_if_present _ _); reflexivity.
Qed.

Lemma normalize_rows_at_time (now t' : Time) (cat : pystr)
    (rows : list raw_row) :
  forall acc,
    normalize_rows X t' cat rows (payloads_at_time t' acc)
    = match normalize_rows X now cat rows acc with
      | Ok p => Ok (payloads_at_time t' p)
      | Raise e => Raise e
      end.
Proof.
  induction rows as [|raw rows IH]; intros acc; cbn [normalize_rows];
    [reflexivity|].
  rewrite (process_row_at_time now t').
  destruct (process_row X now cat raw) as [[r|]|e]; [|apply IH|reflexivity].
  rewrite <- IH. f_equal.
  unfold append_row, payloads_at_time, records_at_time.
  cbn [components_payload attr_payload tag_payload row_component row_attrs
       row_tag_records].
  rewrite fmap_app. reflexivity.
Qed.

Lemma accepted_at_time (t' : Time) (p : Payloads (float X)) :
  (forall c t, server_rejects X (UpsertComponent (at_time t c))
               = server_rejects X (UpsertComponent c)) ->
  forallb (accepted X) (statements (payloads_at_time t' p))
  = forallb (accepted X) (statements p).
Proof.
  intros Hrej. unfold statements, payloads_at_time.
  cbn [components_payload attr_payload tag_payload].
  rewrite !forallb_app. f_equal.
  induction (components_payload p) as [|c cs IH]; [reflexivity|].
  cbn [fmap list_fmap forallb]. rewrite IH. f_equal.
  unfold accepted. rewrite Hrej. reflexivity.
Qed.

End Tables.

(** ** Calls on the connection *)

Section Run.
Context (X : Externals).

Lemma execute_batch_spec (stmts : list (Statement (float X))) :
  forall w,
    let t := apply_all X (pg_now X (txn (conn w))) (pending (conn w)) stmts in
    (forallb (accepted X) stmts = true /\
     execute_batch X stmts w = Returned tt (set_pending t w)) \/
    (forallb (accepted X) stmts = false /\
     exists t', execute_batch X stmts w
                = Raised IntegrityError (set_pending t' w)).
Proof.
  induction stmts as [|s stmts IH]; intros w.
  - left. split; [reflexivity|]. destruct w as [[] ? ?]. reflexivity.
  - cbn [forallb execute_batch]. unfold_bind. unfold execute, accepted at 1 3.
    destruct (server_rejects X s) eqn:Hs; cbn [negb andb].
    + right. split; [reflexivity|]. exists (pending (conn w)).
      destruct w as [[] ? ?]. reflexivity.
    + unfold with_conn.
      destruct (IH (on_conn (conn_apply X s) w)) as [[Hall ->]|[Hall [t' ->]]].
      * left. split; [exact Hall|]. reflexivity.
      * right. split; [exact Hall|]. exists t'. reflexivity.
Qed.

Lemma batch_if_any_spec {A : Type} (mk : A -> Statement (float X))
    (report : nat -> Msg) (l : list A) (w : World (float X)) :
  let t := apply_all X (pg_now X (txn (conn w))) (pending (conn w))
                     (mk <$> l) in
  (forallb (accepted X) (mk <$> l) = true /\
   batch_if_any X mk report l w
   = Returned tt (says (report_if_any report l) (set_pending t w))) \/
  (forallb (accepted X) (mk <$> l) = false /\
   exists t', batch_if_any X mk report l w
              = Raised IntegrityError (set_pending t' w)).
Proof.
  destruct l as [|a l].
  - left. split; [reflexivity|]. destruct w as [[] ? ?].
    cbn. unfold says, set_pending, on_conn. cbn. rewrite app_nil_r.
    reflexivity.
  - unfold batch_if_any. unfold_bind.
    destruct (execute_batch_spec (mk <$> a :: l) w)
      as [[Hall ->]|[Hall [t' ->]]].
    + left. split; [exact Hall|]. reflexivity.
    + right. split; [exact Hall|]. exists t'. reflexivity.
Qed.

(** What one call of [upsert_components] does: the clock is read once;
    a row that raises ends the call before any statement; a rejected
    statement ends it before the commit; otherwise all the statements
    are applied in order and committed. *)
Lemma upsert_components_spec (cat : pystr) (rows : list raw_row)
    (w : World (float X)) :
  match normalize_rows X (utcnow X (clock_reads w)) cat rows no_payloads with
  | Raise e => upsert_components X cat rows w = Raised e (tick w)
  | Ok p =>
      if forallb (accepted X) (statements p)
      then upsert_components X cat rows w
           = Returned tt
               (on_conn conn_commit
                  (says (batch_messages p)
                     (set_pending
                        (apply_all X (pg_now X (txn (conn w)))
                                   (pending (conn w)) (statements p))
                        (tick w))))
      else exists t msgs,
             upsert_components X cat rows w
             = Raised IntegrityError (says msgs (set_pending t (tick w)))
  end.
Proof.
  unfold upsert_components, read_utcnow. unfold_bind.
  destruct (normalize_rows _ _ _ _ _) as [p|e]; cbn [lift]; [|reflexivity].
  unfold_bind. cbv beta.
  unfold statements, batch_messages, apply_all.
  rewrite !forallb_app, !foldl_app.
  destruct w as [[com pen tx ht cl] cr co].
  destruct (batch_if_any_spec UpsertComponent MsgComponents
              (components_payload p)
              (tick {| conn := {| committed := com; pending := pen; txn := tx;
                                  has_components_table := ht; closed := cl |};
                       clock_reads := cr; console := co |}))
    as [[-> ->]|[-> [t' ->]]]; cbn [andb];
    [|exists t', []; world_simpl; rewrite app_nil_r; reflexivity].
  match goal with |- context [batch_if_any X UpsertAttribute _ _ ?w1] =>
    destruct (batch_if_any_spec UpsertAttribute MsgAttributes
                (attr_payload p) w1) as [[-> ->]|[-> [t' ->]]]
  end; cbn [andb]; [|eexists t', _; world_simpl; reflexivity].
  match goal with |- context [batch_if_any X InsertTag _ _ ?w1] =>
    destruct (batch_if_any_spec InsertTag MsgTags
                (tag_payload p) w1) as [[-> ->]|[-> [t' ->]]]
  end; cbn [andb];
    [|eexists t', _; world_simpl; rewrite <- app_assoc; reflexivity].
  world_simpl. rewrite <- !app_assoc. reflexivity.
Qed.

Lemma upsert_components_returned (cat : pystr) (rows : list raw_row)
    (w w' : World (float X)) :
  upsert_components X cat rows w = Returned tt w' ->
  exists p,
    normalize_rows X (utcnow X (clock_reads w)) cat rows no_payloads = Ok p /\
    forallb (accepted X) (statements p) = true /\
    w' = on_conn conn_commit
           (says (batch_messages p)
              (set_pending
                 (apply_all X (pg_now X (txn (conn w)))
                            (pending (conn w)) (statements p))
                 (tick w))).
Proof.
  intros H. pose proof (upsert_components_spec cat rows w) as Hspec.
  destruct (normalize_rows _ _ _ _ _) as [p|e]; [|congruence].
  exists p. split; [reflexivity|].
  destruct (forallb _ _).
  - split; [reflexivity|]. congruence.
  - destruct Hspec as (t & msgs & Hspec). congruence.
Qed.

(** C3. Sending the rows of a file a second time, at any later moment
    and on any connection that sees what the first call committed,
    succeeds again and leaves the three tables as they were: the same
    component rows up to [last_updated] and [updated_at], hence as many
    of them, the same attributes and the same tags. The decisions of
    the server are taken not to depend on [last_updated]. *)
Theorem reimport_is_idempotent (cat : pystr) (rows : list raw_row)
    (w w1 w1' : World (float X)) :
  (forall c t, server_rejects X (UpsertComponent (at_time t c))
               = server_rejects X (UpsertComponent c)) ->
  upsert_components X cat rows w = Returned tt w1 ->
  pending (conn w1') = committed (conn w1) ->
  exists w2,
    upsert_components X cat rows w1' = Returned tt w2 /\
    without_times <$> components (committed (conn w2))
      = without_times <$> components (committed (conn w1)) /\
    size (components (committed (conn w2)))
      = size (components (committed (conn w1))) /\
    component_attributes (committed (conn w2))
      = component_attributes (committed (conn w1)) /\
    component_tags (committed (conn w2))
      = component_tags (committed (conn w1)).
Proof.
  intros Hrej H1 Hsee.
  apply upsert_components_returned in H1 as (p & Hp & Hacc & ->).
  pose proof (upsert_components_spec cat rows w1') as Hspec.
  pose proof (normalize_rows_at_time X (utcnow X (clock_reads w))
                (utcnow X (clock_reads w1')) cat rows no_payloads) as Hp'.
  rewrite Hp in Hp'. change (payloads_at_time _ no_payloads)
    with (@no_payloads (float X)) in Hp'.
  rewrite Hp' in Hspec. rewrite (accepted_at_time X) in Hspec by exact Hrej.
  rewrite Hacc in Hspec. eexists. split; [exact Hspec|].
  world_simpl. rewrite Hsee. world_simpl.
  set (nd := pg_now X (txn (conn w))).
  set (nd' := pg_now X (txn (conn w1'))).
  set (t' := utcnow X (clock_reads w1')).
  destruct (apply_statements X nd (pending (conn w)) p) as (Hc & Ha & Hg).
  set (T1 := apply_all X nd (pending (conn w)) (statements p)) in *.
  destruct (apply_statements X nd' T1 (payloads_at_time t' p))
    as (Hc' & Ha' & Hg').
  cbv zeta in *. cbn [payloads_at_time components_payload attr_payload
                      tag_payload] in *.
  assert (Hcomp : without_times <$>
            components (apply_all X nd' T1 (statements (payloads_at_time t' p)))
            = without_times <$> components T1).
  { rewrite Hc', Hc. apply resend_components. }
  repeat split.
  - exact Hcomp.
  - rewrite <- (map_size_fmap without_times), Hcomp.
    apply map_size_fmap.
  - rewrite Ha', Ha. apply resend_attributes.
  - rewrite Hg', Hg. apply resend_tags.
Qed.

(** C7. A row without a name is passed over: it gives no record and
    raises nothing, and the call does to the connection, the clock and
    the console exactly what it does without that row. *)
Theorem nameless_row_is_dropped (cat : pystr) (rows1 rows2 : list raw_row)
    (raw : raw_row) (w : World (float X)) :
  truthy (dict_get (normalize_raw X raw) (py "name")) = false ->
  (forall now, process_row X now cat raw = Ok None) /\
  (forall now acc,
     normalize_rows X now cat (rows1 ++ raw :: rows2) acc
     = normalize_rows X now cat (rows1 ++ rows2) acc) /\
  upsert_components X cat (rows1 ++ raw :: rows2) w
  = upsert_components X cat (rows1 ++ rows2) w.
Proof.
  intros Hname.
  assert (Hrow : forall now, process_row X now cat raw = Ok None)
    by (intros now; apply process_row_no_name, Hname).
  assert (Hrows : forall now acc,
            normalize_rows X now cat (rows1 ++ raw :: rows2) acc
            = normalize_rows X now cat (rows1 ++ rows2) acc)
    by (intros now acc; apply normalize_rows_skip, Hrow).
  repeat split; [exact Hrow|exact Hrows|].
  unfold upsert_components, read_utcnow. unfold_bind.
  rewrite Hrows. reflexivity.
Qed.

(** *** One time per call *)

Lemma component_steps_last_updated (nd now : Time) (k : pystr)
    (cs : list (Component (float X))) :
  (forall c, c ∈ cs -> last_updated c = now) ->
  forall o,
    (exists r, o = Some r /\ last_updated (columns r) = now) \/
    (exists c, c ∈ cs /\ id c = k) ->
    exists r, foldl (component_step nd k) o cs = Some r /\
              last_updated (columns r) = now.
Proof.
  induction cs as [|c cs IH]; intros Hall o Ho; cbn [foldl].
  - destruct Ho as [Ho|(c & Hc & _)]; [exact Ho|inversion Hc].
  - apply IH; [intros c' Hc'; apply Hall, list_elem_of_further, Hc'|].
    unfold component_step at 1. case_bool_decide as Hk.
    + left. eexists. split; [reflexivity|].
      rewrite <- (Hall c) by apply list_elem_of_here.
      destruct o; reflexivity.
    + destruct Ho as [Ho|(c' & Hc' & Hid)]; [auto|].
      apply elem_of_cons in Hc' as [->|Hc']; [contradiction|eauto].
Qed.

(** C5, as the code has it. One call of [upsert_components], that is one
    file, reads the clock once, and every component it builds and every
    row of [components] it writes carries that reading. *)
Theorem one_timestamp_per_call (cat : pystr) (rows : list raw_row)
    (w w' : World (float X)) :
  upsert_components X cat rows w = Returned tt w' ->
  let now := utcnow X (clock_reads w) in
  clock_reads w' = S (clock_reads w) /\
  exists p,
    normalize_rows X now cat rows no_payloads = Ok p /\
    forall c, c ∈ components_payload p ->
      last_updated c = now /\
      exists r, components (committed (conn w')) !! id c = Some r /\
                last_updated (columns r) = now.
Proof.
  intros H now.
  apply upsert_components_returned in H as (p & Hp & Hacc & ->).
  split; [reflexivity|]. exists p. split; [exact Hp|].
  assert (Hall : forall c, c ∈ components_payload p -> last_updated c = now).
  { eapply normalize_rows_last_updated; [|exact Hp].
    intros c Hc. inversion Hc. }
  intros c Hc. split; [auto|]. world_simpl.
  destruct (apply_statements X (pg_now X (txn (conn w))) (pending (conn w)) p)
    as (-> & _ & _).
  rewrite lookup_foldl_upsert.
  apply component_steps_last_updated; [exact Hall|]. right. eauto.
Qed.

(** *** Files *)

Lemma import_file_unfold (total : nat) (f : CsvFile) (w : World (float X)) :
  import_file X total f w
  = let cat := normalize_category X (stem f) in
    let w1 := say (MsgCategory cat) (say (MsgProcessing (stem f)) w) in
    match contents f with
    | Raise e => Raised e w1
    | Ok [] => Returned total (say MsgEmptyFile w1)
    | Ok (r :: rows) =>
        match upsert_components X cat (r :: rows) w1 with
        | Returned _ w2 =>
            Returned (total + length (r :: rows))%nat (say MsgBlank w2)
        | Raised e w2 => Raised e w2
        end
    end.
Proof.
  unfold import_file. unfold_bind. unfold print. cbv zeta.
  destruct (contents f) as [[|r rows]|e]; reflexivity.
Qed.

Lemma upsert_components_raised (cat : pystr) (rows : list raw_row)
    (w w' : World (float X)) (e : exn) :
  upsert_components X cat rows w = Raised e w' ->
  committed (conn w') = committed (conn w).
Proof.
  intros H. pose proof (upsert_components_spec cat rows w) as Hspec.
  destruct (normalize_rows _ _ _ _ _) as [p|e'].
  - destruct (forallb _ _); [congruence|].
    destruct Hspec as (t & msgs & Hspec). rewrite Hspec in H.
    injection H as _ <-. reflexivity.
  - rewrite Hspec in H. injection H as _ <-. reflexivity.
Qed.

Lemma import_file_raised (total : nat) (f : CsvFile)
    (w w' : World (float X)) (e : exn) :
  import_file X total f w = Raised e w' ->
  committed (conn w') = committed (conn w).
Proof.
  rewrite import_file_unfold. cbv zeta.
  destruct (contents f) as [[|r rows]|e'].
  - discriminate.
  - destruct (upsert_components _ _ _ _) as [u w2|e2 w2] eqn:Hup;
      [discriminate|].
    intros [= _ <-]. apply upsert_components_raised in Hup. exact Hup.
  - intros [= _ <-]. reflexivity.
Qed.

Lemma import_files_app (l1 l2 : list CsvFile) :
  forall total w,
    import_files X total (l1 ++ l2) w
    = match import_files X total l1 w with
      | Returned t w1 => import_files X t l2 w1
      | Raised e w1 => Raised e w1
      end.
Proof.
  induction l1 as [|f l1 IH]; intros t w; cbn [app import_files];
    [reflexivity|].
  unfold_bind. destruct (import_file X t f w); [apply IH|reflexivity].
Qed.

(** [import_dataset] once the table is there and a file was found. *)
Lemma import_dataset_loop (files : list CsvFile) (w : World (float X)) :
  has_components_table (conn w) = true -> files <> [] ->
  import_dataset X files w
  = match import_files X 0 files (at_loop_entry (length files) w) with
    | Returned t w1 => (true, on_conn conn_close (say (MsgDone t) w1))
    | Raised e w1 => (false, after_failure e w1)
    end.
Proof.
  intros Ht Hfiles. unfold import_dataset, import_body. unfold_bind.
  unfold print at 1. cbn [say conn]. rewrite Ht. cbn [negb].
  destruct files as [|f files]; [contradiction|].
  unfold print at 1. unfold at_loop_entry.
  destruct (import_files X 0 (f :: files) _); reflexivity.
Qed.

(** C4, as the code has it. When the import of a file raises, after the
    files before it went through, the run prints the error, rolls back,
    closes the connection and returns [False]; the files after it are
    not touched. What is rolled back is the open transaction, which
    holds the statements of the failing file only: what the earlier
    files committed stays committed. *)
Theorem failed_file_is_rolled_back_alone (before after : list CsvFile)
    (f : CsvFile) (w wk wf : World (float X)) (total : nat) (e : exn) :
  has_components_table (conn w) = true ->
  import_files X 0 before
    (at_loop_entry (length (before ++ f :: after)) w) = Returned total wk ->
  import_file X total f wk = Raised e wf ->
  import_dataset X (before ++ f :: after) w = (false, after_failure e wf) /\
  committed (conn (after_failure e wf)) = committed (conn wk) /\
  pending (conn (after_failure e wf)) = committed (conn wk) /\
  closed (conn (after_failure e wf)) = true /\
  console (after_failure e wf) = console wf ++ [MsgError e].
Proof.
  intros Ht Hbefore Hf.
  pose proof (import_file_raised _ _ _ _ _ Hf) as Hcom.
  repeat split; try (cbn; congruence).
  rewrite import_dataset_loop by (exact Ht || (destruct before; discriminate)).
  rewrite import_files_app, Hbefore. cbn [import_files]. unfold_bind.
  rewrite Hf. reflexivity.
Qed.

(** *** A price that does not parse *)




End Run.

(** ** Examples on concrete rows *)


Lemma component_id_is_sha1_of_triple_witness :
  exists r,
    process_row ascii_externals 7 (py "GPU") rtx_row = Ok (Some r) /\
    exists bytes,
      utf8_encode (category (row_component r) ++ py "|"
                   ++ name (row_component r) ++ py "|"
                   ++ default [] (product_url (row_component r))) = Some bytes /\
      id (row_component r) = SHA1.hexdigest bytes /\
      length (id (row_component r)) = 40%nat /\
      hash_component_id (category (row_component r)) (name (row_component r))
                        (default [] (product_url (row_component r)))
        = Ok (id (row_component r)).
Proof.
  eexists. split; [vm_compute; reflexivity|].
  apply (component_id_is_sha1_of_triple ascii_externals 7 (py "GPU") rtx_row).
  vm_compute. reflexivity.
Defined.

Lemma in_stock_coercion_witness :
  exists r,
    process_row ascii_externals 7 (py "CPU") yes_row = Ok (Some r) /\
    in_stock (row_component r) = Some true.
Proof.
  eexists. split; [vm_compute; reflexivity|].
  apply (in_stock_coercion ascii_externals 7 (py "CPU") yes_row);
    vm_compute; reflexivity.
Defined.

(** C2, as stated, fails: ["maybe"] is present, non-empty and in neither
    word list, and the component carries null, not [true]. *)
Lemma in_stock_unrecognised_is_not_true :
  exists r,
    process_row ascii_externals 7 (py "CPU") maybe_row = Ok (Some r) /\
    dict_get (normalize_raw ascii_externals maybe_row) (py "in_stock")
      = Some (py "maybe") /\
    in_stock (row_component r) = None /\
    in_stock (row_component r) <> Some true.
Proof.
  eexists. split; [vm_compute; reflexivity|].
  split; [vm_compute; reflexivity|].
  split; [reflexivity|discriminate].
Qed.

(** Two columns for the same field: the later one wins. *)
Example url_then_link :
  dict_get (normalize_raw ascii_externals
              [Field (py "url") (Some (py "http://a"));
               Field (py "Link") (Some (py " http://b "))])
           (py "product_url")
  = Some (py "http://b").
Proof. vm_compute. reflexivity. Qed.

Example normalize_category_examples :
  normalize_category ascii_externals (py "graphics_card") = py "GPU" /\
  normalize_category ascii_externals (py "Memory") = py "RAM" /\
  normalize_category ascii_externals (py "cpu-cooler") = py "CPU_COOLER".
Proof. repeat split; vm_compute; reflexivity. Qed.

Example bool_from_value_table :
  map (bool_from_value ascii_externals)
      [Some (py "yes"); Some (py "Y"); Some (py "1"); Some (py "available");
       Some (py "no"); Some (py "0"); Some (py "out of stock");
       Some (py "maybe"); None]
  = [Some true; Some true; Some true; Some true;
     Some false; Some false; Some false; None; None].
Proof. vm_compute. reflexivity. Qed.

(** The scenario of the documentation: one component, one attribute, two
    tags. *)
Example rtx_scenario :
  exists p,
    normalize_rows ascii_externals 7 (py "GPU") [rtx_row] no_payloads = Ok p /\
    (id <$> components_payload p)
      = [py "5f70d0f4d1192d2ebfb7a29b4c1a10786ad1b7a6"] /\
    (price <$> components_payload p) = [Some (159999%Z, 2%nat)] /\
    (in_stock <$> components_payload p) = [Some true] /\
    (stock_units <$> components_payload p) = [0%Z] /\
    ((fun a => (attribute_key a, attribute_value a)) <$> attr_payload p)
      = [(py "wattage", py "450W")] /\
    (tag <$> tag_payload p) ≡ₚ [py "NVIDIA"; py "GPU"].
Proof.
  eexists. split; [vm_compute; reflexivity|].
  repeat split; try (vm_compute; reflexivity).
  vm_compute. apply perm_swap.
Qed.

Lemma reimport_is_idempotent_witness :
  exists w2,
    upsert_components ascii_externals (py "GPU") [rtx_row; rtx_row] rtx_imported
      = Returned tt w2 /\
    without_times <$> components (committed (conn w2))
      = without_times <$> components (committed (conn rtx_imported)) /\
    size (components (committed (conn w2)))
      = size (components (committed (conn rtx_imported))) /\
    component_attributes (committed (conn w2))
      = component_attributes (committed (conn rtx_imported)) /\
    component_tags (committed (conn w2))
      = component_tags (committed (conn rtx_imported)).
Proof.
  apply (reimport_is_idempotent ascii_externals (py "GPU") [rtx_row; rtx_row]
           fresh_world rtx_imported rtx_imported).
  - intros c t. reflexivity.
  - vm_refl.
  - reflexivity.
Defined.

(** C4, as stated, fails. The directory holds [case.csv] and [cpu.csv],
    read in this order: the first file goes through, the second raises,
    the run returns [False], and the component of the first file is
    still committed. *)
Lemma aborted_run_keeps_earlier_files :
  sorted_glob [case_file; bad_cpu_file] = true /\
  ~ failure_leaves_nothing ascii_externals [case_file; bad_cpu_file]
      fresh_world.
Proof.
  split; [reflexivity|].
  unfold failure_leaves_nothing. intros H.
  assert (Hsize : size (components (committed (conn
            (import_dataset ascii_externals [case_file; bad_cpu_file]
                            fresh_world).2))) = 1%nat) by vm_refl.
  rewrite H in Hsize by vm_refl. discriminate Hsize.
Qed.

(** [case.csv], [cpu.csv] and [memory.csv], in the order of the run. *)
Lemma failed_file_is_rolled_back_alone_witness :
  sorted_glob [case_file; maybe_cpu_file; ram_file] = true /\
  import_dataset strict_externals [case_file; maybe_cpu_file; ram_file]
                 fresh_world
    = (false, after_failure IntegrityError cpu_failed) /\
  committed (conn (after_failure IntegrityError cpu_failed))
    = committed (conn case_done) /\
  pending (conn (after_failure IntegrityError cpu_failed))
    = committed (conn case_done) /\
  closed (conn (after_failure IntegrityError cpu_failed)) = true /\
  console (after_failure IntegrityError cpu_failed)
    = console cpu_failed ++ [MsgError IntegrityError].
Proof.
  split; [reflexivity|].
  apply (failed_file_is_rolled_back_alone strict_externals
           [case_file] [ram_file] maybe_cpu_file fresh_world case_done
           cpu_failed 1 IntegrityError).
  - reflexivity.
  - vm_refl.
  - vm_refl.
Defined.

(** In that run the failing file had one statement applied when the
    second was rejected; the rollback takes it back, and the component of
    the first file is the only one committed. *)
Example rollback_discards_pending :
  size (components (pending (conn cpu_failed))) = 2%nat /\
  size (components (committed (conn cpu_failed))) = 1%nat /\
  size (components
          (committed (conn (after_failure IntegrityError cpu_failed)))) = 1%nat.
Proof. repeat split; vm_refl. Qed.

(** C5, as stated, fails: two files, two readings of the clock, two
    different [last_updated] in one run. *)
Lemma two_files_two_timestamps :
  ~ one_timestamp_per_run ascii_externals [cpu_file; gpu_file] fresh_world.
Proof.
  unfold one_timestamp_per_run. intros H.
  set (k1 := SHA1.hexdigest (default [] (utf8_encode (py "CPU|Core i5|")))).
  set (k2 := py "5f70d0f4d1192d2ebfb7a29b4c1a10786ad1b7a6").
  specialize (H k1 k2). set (t := components _) in H.
  assert (E1 : (fun r => last_updated (columns r)) <$> t !! k1 = Some 0%Z)
    by vm_refl.
  assert (E2 : (fun r => last_updated (columns r)) <$> t !! k2 = Some 1%Z)
    by vm_refl.
  destruct (t !! k1) as [r1|]; [|discriminate E1].
  destruct (t !! k2) as [r2|]; [|discriminate E2].
  specialize (H r1 r2 eq_refl eq_refl).
  assert (Hz : Some 0%Z = Some 1%Z).
  { etransitivity; [symmetry; exact E1|].
    etransitivity; [|exact E2]. cbn. f_equal. exact H. }
  discriminate Hz.
Qed.

Lemma one_timestamp_per_call_witness :
  clock_reads two_rows_imported = S (clock_reads (@fresh_world (Z * nat))) /\
  exists p,
    normalize_rows ascii_externals 0 (py "CPU") [intel_row; yes_row]
                   no_payloads = Ok p /\
    forall c, c ∈ components_payload p ->
      last_updated c = 0%Z /\
      exists r, components (committed (conn two_rows_imported)) !! id c = Some r /\
                last_updated (columns r) = 0%Z.
Proof.
  apply (one_timestamp_per_call ascii_externals (py "CPU")
           [intel_row; yes_row] fresh_world two_rows_imported).
  vm_refl.
Defined.


Lemma nameless_row_is_dropped_witness :
  (forall now, process_row ascii_externals now (py "CPU") nameless_row
               = Ok None) /\
  (forall now acc,
     normalize_rows ascii_externals now (py "CPU")
                    ([intel_row] ++ nameless_row :: [yes_row]) acc
     = normalize_rows ascii_externals now (py "CPU")
                      ([intel_row] ++ [yes_row]) acc) /\
  upsert_components ascii_externals (py "CPU")
                    ([intel_row] ++ nameless_row :: [yes_row]) fresh_world
  = upsert_components ascii_externals (py "CPU")
                      ([intel_row] ++ [yes_row]) fresh_world.
Proof.
  apply (nameless_row_is_dropped ascii_externals (py "CPU")
           [intel_row] [yes_row] nameless_row fresh_world).
  vm_refl.
Defined.

(** Brand ["Intel"], category ["CPU"]: the two tags, once each. *)
Lemma row_tags_are_brand_and_category_witness :
  exists r,
    process_row ascii_externals 7 (py "CPU") intel_row = Ok (Some r) /\
    row_tag_records r ≡ₚ
      [ {| tag_component_id := id (row_component r); tag := py "Intel" |};
        {| tag_component_id := id (row_component r); tag := py "CPU" |} ] /\
    NoDup (row_tag_records r).
Proof.
  eexists. split; [vm_compute; reflexivity|].
  destruct (row_tags_are_brand_and_category ascii_externals 7 (py "CPU")
              intel_row _ ltac:(vm_compute; reflexivity)) as (Hperm & Hnd & _).
  split; [exact Hperm|exact Hnd].
Defined.

Lemma payloads_referentially_closed_witness :
  exists p,
    normalize_rows ascii_externals 7 (py "GPU") [rtx_row; yes_row] no_payloads
      = Ok p /\
    (forall a, a ∈ attr_payload p ->
       exists c, c ∈ components_payload p /\ id c = attr_component_id a) /\
    (forall g, g ∈ tag_payload p ->
       exists c, c ∈ components_payload p /\ id c = tag_component_id g).
Proof.
  eexists. split; [vm_compute; reflexivity|].
  apply (payloads_referentially_closed ascii_externals 7 (py "GPU")
           [rtx_row; yes_row]).
  vm_compute. reflexivity.
Defined.

Lemma empty_product_url_like_absent_witness :
  process_row ascii_externals 7 (py "CPU")
    (blank_url_row_pre ++ Field (py "URL") (Some (py "  "))
       :: blank_url_row_post)
  = process_row ascii_externals 7 (py "CPU")
      (blank_url_row_pre ++ blank_url_row_post) /\
  forall r,
    process_row ascii_externals 7 (py "CPU")
      (blank_url_row_pre ++ blank_url_row_post) = Ok (Some r) ->
    product_url (row_component r) = None /\
    hash_component_id (py "CPU") (name (row_component r)) []
      = Ok (id (row_component r)).
Proof.
  apply (empty_product_url_like_absent ascii_externals 7 (py "CPU")
           blank_url_row_pre blank_url_row_post (py "URL") (Some (py "  "))).
  - discriminate.
  - vm_refl.
  - reflexivity.
  - intros it Hin.
    repeat (apply elem_of_cons in Hin as [->|Hin];
            [vm_compute; discriminate|]).
    inversion Hin.
Defined.

(** * Further properties of the loader *)

(** ** Column names *)

Lemma alias_targets_standard (f t : pystr) :
  ALIAS_MAP !! f = Some t -> t ∈ STANDARD_FIELDS /\ ALIAS_MAP !! t = None.
Proof.
  intros E. unfold ALIAS_MAP in E. apply elem_of_list_to_map_2 in E.
  cbn [map] in E.
  repeat (apply elem_of_cons in E as [E|E];
          [injection E as _ ->; split; vm_compute; reflexivity|]).
  inversion E.
Qed.

(** X1. A normalised column name is never itself an alias, so a second
    pass through the alias table would change nothing; and a name the
    table did rewrite is one of the standard fields, so an aliased column
    never ends among the attributes. *)
Theorem no_alias_survives (X : Externals) (k : pystr) :
  ALIAS_MAP !! normalize_field X k = None /\
  (is_Some (ALIAS_MAP !! py_lower X (strip k)) ->
   normalize_field X k ∈ STANDARD_FIELDS).
Proof.
  unfold normalize_field.
  destruct (ALIAS_MAP !! py_lower X (strip k)) as [t|] eqn:E; cbn [default].
  - apply alias_targets_standard in E as [Hs Ha]. auto.
  - split; [exact E|]. intros [t Ht]. discriminate Ht.
Qed.

(** ** The dictionary of a row *)

Lemma foldl_items_get (X : Externals) (K : pystr) (post : raw_row) :
  forall d,
    (forall it, it ∈ post -> item_key X it <> Some K) ->
    dict_get (foldl (normalize_item X) d post) K = dict_get d K.
Proof.
  induction post as [|it post IH]; intros d Hpost; cbn [foldl];
    [reflexivity|].
  rewrite IH by (intros it' Hit'; apply Hpost, list_elem_of_further, Hit').
  assert (Hit : item_key X it <> Some K)
    by (apply Hpost, list_elem_of_here).
  destruct it as [k v|extra]; cbn [item_key normalize_item] in *;
    [|reflexivity].
  destruct (truthy (Some k)); [|reflexivity].
  rewrite dict_get_set. rewrite bool_decide_eq_false_2 by congruence.
  reflexivity.
Qed.

(** X2. When several columns of a row stand for the same field, the last
    one in column order gives the value, trimmed. *)
Theorem last_column_wins (X : Externals) (pre post : raw_row) (k : pystr)
    (v : option pystr) :
  k <> [] ->
  (forall it, it ∈ post -> item_key X it <> Some (normalize_field X k)) ->
  dict_get (normalize_raw X (pre ++ Field k v :: post)) (normalize_field X k)
  = strip <$> v.
Proof.
  intros Hk Hpost. rewrite normalize_raw_app. cbn [foldl].
  rewrite foldl_items_get by exact Hpost.
  cbn [normalize_item]. destruct k; [contradiction|]. cbn [truthy].
  rewrite dict_get_set. rewrite bool_decide_eq_true_2; reflexivity.
Qed.

Lemma dict_set_NoDup (d : dict) (k : pystr) (v : option pystr) :
  NoDup d.*1 -> NoDup (dict_set d k v).*1.
Proof.
  induction d as [|[k0 v0] d IH]; cbn [dict_set fmap list_fmap fst].
  - intros _. apply NoDup_singleton.
  - intros [Hk0 Hd]%NoDup_cons. case_bool_decide as Hk;
      cbn [fmap list_fmap fst].
    + subst. apply NoDup_cons. auto.
    + apply NoDup_cons. split; [|auto].
      intros [->|Hin]%dict_set_keys; [congruence|contradiction].
Qed.

Lemma normalize_raw_NoDup (X : Externals) (raw : raw_row) :
  NoDup (normalize_raw X raw).*1.
Proof.
  induction raw as [|it raw IH] using rev_ind; [apply NoDup_nil_2|].
  rewrite normalize_raw_snoc. destruct it as [k v|extra];
    cbn [normalize_item]; [|exact IH].
  destruct (truthy (Some k)); [|exact IH]. apply dict_set_NoDup, IH.
Qed.

Lemma dict_get_elem (d : dict) (k : pystr) (s : pystr) :
  NoDup d.*1 -> (dict_get d k = Some s <-> (k, Some s) ∈ d).
Proof.
  induction d as [|[k0 v0] d IH]; cbn [dict_get fmap list_fmap fst].
  - intros _. split; [discriminate|intros H; inversion H].
  - intros [Hk0 Hd]%NoDup_cons. rewrite elem_of_cons.
    case_bool_decide as Hk.
    + subst k0. split.
      * intros ->. left. reflexivity.
      * intros [[= ->]|Hin]; [reflexivity|].
        exfalso. apply Hk0. apply list_elem_of_fmap. exists (k, Some s). auto.
    + rewrite (IH Hd). split; [auto|].
      intros [[= -> ->]|Hin]; [congruence|exact Hin].
Qed.

Lemma row_attributes_keys_sublist (cid : pystr) (d : dict) :
  sublist (attribute_key <$> row_attributes cid d) d.*1.
Proof.
  induction d as [|[k v] d IH]; cbn; [constructor|].
  destruct (_ || _); cbn; [apply sublist_cons|apply sublist_skip]; exact IH.
Qed.

(** ** The records of one row *)

Section MoreRow.
Context (X : Externals).

(** X3. The attribute records of an accepted row are exactly the columns
    of the normalised row that are not standard fields and hold a
    non-empty value, each under the id of the row's component; no two of
    them have the same key. *)
Theorem attributes_are_the_other_columns (now : Time) (cat : pystr)
    (raw : raw_row) (r : RowRecords (float X)) :
  process_row X now cat raw = Ok (Some r) ->
  NoDup (attribute_key <$> row_attrs r) /\
  forall a, a ∈ row_attrs r <->
    (attr_component_id a = id (row_component r) /\
     (attribute_key a ∉ STANDARD_FIELDS) /\
     attribute_value a <> [] /\
     dict_get (normalize_raw X raw) (attribute_key a)
       = Some (attribute_value a)).
Proof.
  intros H.
  apply process_row_Some in H
    as (_ & cid & pr & pp & su & _ & _ & _ & _ & ->).
  cbn [row_component row_attrs id].
  pose proof (normalize_raw_NoDup X raw) as Hnd.
  set (n := normalize_raw X raw) in *. split.
  - eapply sublist_NoDup; [exact Hnd|]. apply row_attributes_keys_sublist.
  - intros [acid k s]. cbn [attr_component_id attribute_key attribute_value].
    unfold row_attributes. rewrite list_elem_of_omap. split.
    + intros ([k' v'] & Hin & Hf).
      destruct (bool_decide (k' ∈ STANDARD_FIELDS)) eqn:Hstd;
        cbn [orb] in Hf; [discriminate|].
      destruct v' as [[|c s']|]; cbn [truthy negb] in Hf; try discriminate.
      injection Hf as <- <- <-. apply bool_decide_eq_false in Hstd.
      repeat split; [exact Hstd|discriminate|].
      apply dict_get_elem; assumption.
    + intros (-> & Hstd & Hs & Hget). exists (k, Some s).
      split; [apply dict_get_elem; assumption|].
      rewrite bool_decide_eq_false_2 by exact Hstd.
      destruct s; [contradiction|]. reflexivity.
Qed.


(** *** White space *)

Lemma lstrip_idemp (s : pystr) : lstrip (lstrip s) = lstrip s.
Proof.
  induction s as [|c s IH]; cbn [lstrip]; [reflexivity|].
  destruct (py_isspace c) eqn:Hc; [exact IH|].
  cbn [lstrip]. rewrite Hc. reflexivity.
Qed.

Lemma lstrip_snoc (s : pystr) (c : N) :
  py_isspace c = false -> lstrip (s ++ [c]) = lstrip s ++ [c].
Proof.
  intros Hc. induction s as [|c0 s IH]; cbn [app lstrip].
  - rewrite Hc. reflexivity.
  - destruct (py_isspace c0); [exact IH|reflexivity].
Qed.

Lemma rstrip_cons (c : N) (s : pystr) :
  py_isspace c = false -> rstrip (c :: s) = c :: rstrip s.
Proof.
  intros Hc. unfold rstrip. cbn [rev]. rewrite lstrip_snoc by exact Hc.
  rewrite rev_app_distr. reflexivity.
Qed.

Lemma rstrip_idemp (s : pystr) : rstrip (rstrip s) = rstrip s.
Proof. unfold rstrip. rewrite rev_involutive, lstrip_idemp. reflexivity. Qed.

Lemma lstrip_rstrip (s : pystr) :
  lstrip s = s -> lstrip (rstrip s) = rstrip s.
Proof.
  destruct s as [|c s]; [reflexivity|]. cbn [lstrip].
  destruct (py_isspace c) eqn:Hc.
  - intros H. exfalso.
    assert (Hlen : forall t, (length (lstrip t) <= length t)%nat).
    { induction t as [|c0 t IHt]; cbn [lstrip]; [lia|].
      destruct (py_isspace c0); cbn [length]; lia. }
    specialize (Hlen s). rewrite H in Hlen. cbn [length] in Hlen. lia.
  - intros _. rewrite rstrip_cons by exact Hc. cbn [lstrip]. rewrite Hc.
    reflexivity.
Qed.

Lemma strip_trimmed (s : pystr) : trimmed (strip s).
Proof.
  unfold trimmed, strip.
  rewrite lstrip_rstrip by apply lstrip_idemp. apply rstrip_idemp.
Qed.

Lemma normalize_raw_values_trimmed (raw : raw_row) (k s : pystr) :
  dict_get (normalize_raw X raw) k = Some s -> trimmed s.
Proof.
  induction raw as [|it raw IH] using rev_ind; [discriminate|].
  rewrite normalize_raw_snoc. destruct it as [k0 v|extra];
    cbn [normalize_item]; [|exact IH].
  destruct (truthy (Some k0)); [|exact IH].
  rewrite dict_get_set. case_bool_decide; [|exact IH].
  destruct v as [s0|]; [|discriminate]. intros [= <-]. apply strip_trimmed.
Qed.

(** X5. The texts a component is built from were trimmed once and for
    all: its name, brand, image url and product url have no white space
    at either end, and so has the value of each attribute. *)
Theorem component_texts_are_trimmed (now : Time) (cat : pystr)
    (raw : raw_row) (r : RowRecords (float X)) :
  process_row X now cat raw = Ok (Some r) ->
  let c := row_component r in
  trimmed (name c) /\
  (forall s, brand c = Some s -> trimmed s) /\
  (forall s, image_url c = Some s -> trimmed s) /\
  (forall s, product_url c = Some s -> trimmed s) /\
  (forall a, a ∈ row_attrs r -> trimmed (attribute_value a)).
Proof.
  intros H c. subst c.
  apply process_row_Some in H
    as (Hname & cid & pr & pp & su & _ & _ & _ & _ & ->).
  cbn [row_component row_attrs name brand image_url product_url].
  set (n := normalize_raw X raw) in *.
  assert (Hopt : forall k, trimmed (default [] (dict_get n k))).
  { intros k. destruct (dict_get n k) as [s|] eqn:E; [|reflexivity].
    eapply normalize_raw_values_trimmed, E. }
  repeat split.
  - apply Hopt.
  - intros s Hs. eapply normalize_raw_values_trimmed, Hs.
  - intros s Hs. eapply normalize_raw_values_trimmed, Hs.
  - intros s. unfold row_product_url, py_or.
    replace (dict_get n (py "url")) with (@None pystr)
      by (symmetry; apply normalize_raw_no_url).
    destruct (dict_get n (py "product_url")) as [[|c0 s0]|] eqn:E;
      cbn; try discriminate.
    intros [= <-]. eapply normalize_raw_values_trimmed, E.
  - intros a Ha. unfold row_attributes in Ha.
    apply list_elem_of_omap in Ha as ([k v] & Hin & Hf).
    destruct (_ || _); [discriminate|]. injection Hf as <-.
    cbn [attribute_value]. destruct v as [s|]; [|reflexivity].
    eapply normalize_raw_values_trimmed.
    apply dict_get_elem; [apply normalize_raw_NoDup|exact Hin].
Qed.

End MoreRow.

(** ** The three lists of one call *)

Section MorePayloads.
Context (X : Externals).

Lemma row_tag_records_length (now : Time) (cat : pystr) (raw : raw_row)
    (r : RowRecords (float X)) :
  process_row X now cat raw = Ok (Some r) ->
  (1 <= length (row_tag_records r) <= 2)%nat.
Proof.
  intros H.
  apply process_row_Some in H
    as (_ & cid & pr & pp & su & _ & _ & _ & _ & ->).
  cbn [row_tag_records]. unfold tag_records. rewrite length_fmap.
  rewrite (Permutation_length (row_tags_elements _ _)).
  destruct (_ && _); cbn [length]; lia.
Qed.

Lemma process_row_has_name (now : Time) (cat : pystr) (raw : raw_row) :
  match process_row X now cat raw with
  | Ok (Some _) => has_name X raw = true
  | Ok None => has_name X raw = false
  | Raise _ => has_name X raw = true
  end.
Proof.
  unfold process_row, has_name.
  destruct (truthy (dict_get (normalize_raw X raw) (py "name")));
    cbn [negb]; [|reflexivity].
  unfold_bind.
  destruct (hash_component_id _ _ _); [|reflexivity].
  destruct (parse_if_present _ _); [|reflexivity].
  destruct (parse_if_present _ _); [|reflexivity].
  destruct (parse_if_present _ _); reflexivity.
Qed.

Lemma normalize_rows_shape (now : Time) (cat : pystr) (rows : list raw_row) :
  forall acc p,
    normalize_rows X now cat rows acc = Ok p ->
    exists rs,
      Forall2 (fun raw r => process_row X now cat raw = Ok (Some r))
              (named_rows X rows) rs /\
      components_payload p = components_payload acc ++ (row_component <$> rs) /\
      attr_payload p = attr_payload acc ++ concat (row_attrs <$> rs) /\
      tag_payload p = tag_payload acc ++ concat (row_tag_records <$> rs).
Proof.
  induction rows as [|raw rows IH]; intros acc p H; cbn [normalize_rows] in H.
  - injection H as <-. exists []. cbn. rewrite !app_nil_r.
    repeat split. constructor.
  - pose proof (process_row_has_name now cat raw) as Hn.
    unfold named_rows. cbn [List.filter]. fold (named_rows X rows).
    destruct (process_row X now cat raw) as [[r|]|e] eqn:Hrow;
      rewrite Hn; [| apply IH, H | discriminate].
    destruct (IH _ _ H) as (rs & Hrs & Hc & Ha & Hg).
    exists (r :: rs). cbn [append_row components_payload attr_payload
                            tag_payload] in *.
    rewrite Hc, Ha, Hg. cbn [fmap list_fmap concat].
    rewrite <- !app_assoc. repeat split. constructor; assumption.
Qed.

(** X6. When the loop over the rows of a file ends without raising, it
    built one component for each row with a name, in the order of the
    file, and for each of them one or two tag records: the rows without a
    name are the only ones that leave no trace. *)
Theorem one_component_per_named_row (now : Time) (cat : pystr)
    (rows : list raw_row) (p : Payloads (float X)) :
  normalize_rows X now cat rows no_payloads = Ok p ->
  Forall2 (fun raw c =>
             exists r, process_row X now cat raw = Ok (Some r) /\
                       row_component r = c)
          (named_rows X rows) (components_payload p) /\
  length (components_payload p) = length (named_rows X rows) /\
  (length (components_payload p) <= length (tag_payload p)
   <= 2 * length (components_payload p))%nat.
Proof.
  intros H. apply normalize_rows_shape in H as (rs & Hrs & Hc & _ & Hg).
  cbn [no_payloads components_payload tag_payload app] in Hc, Hg.
  rewrite Hc, Hg, length_fmap.
  assert (Hlen : length rs = length (named_rows X rows))
    by (symmetry; eapply Forall2_length, Hrs).
  split; [|split; [exact Hlen|]].
  - apply Forall2_fmap_r. eapply Forall2_impl; [exact Hrs|].
    cbn. eauto.
  - clear Hc Hg Hlen. induction Hrs as [|raw r raws rs Hr _ IH];
      cbn [fmap list_fmap concat length]; [lia|].
    rewrite length_app. apply row_tag_records_length in Hr. lia.
Qed.

End MorePayloads.

(** ** What one call leaves in the tables *)

Section MoreTables.
Context (X : Externals).

Lemma component_steps_other (nd : Time) (k : pystr)
    (cs : list (Component (float X))) (o : option (ComponentRow (float X))) :
  (forall c, c ∈ cs -> id c <> k) -> foldl (component_step nd k) o cs = o.
Proof.
  revert o. induction cs as [|c cs IH]; intros o Hcs; cbn [foldl];
    [reflexivity|].
  rewrite IH by (intros c' Hc'; apply Hcs, list_elem_of_further, Hc').
  unfold component_step.
  rewrite bool_decide_eq_false_2 by apply Hcs, list_elem_of_here.
  reflexivity.
Qed.

Lemma attribute_steps_other (k : pystr * pystr) (l : list Attribute)
    (o : option pystr) :
  (forall a, a ∈ l -> attribute_key_of a <> k) ->
  foldl (attribute_step k) o l = o.
Proof.
  revert o. induction l as [|a l IH]; intros o Hl; cbn [foldl];
    [reflexivity|].
  rewrite IH by (intros a' Ha'; apply Hl, list_elem_of_further, Ha').
  unfold attribute_step.
  rewrite bool_decide_eq_false_2 by apply (Hl a), list_elem_of_here.
  reflexivity.
Qed.

Lemma tag_steps_other (k : pystr * pystr) (l : list Tag) (o : option pystr) :
  (forall g, g ∈ l -> tag_key X g <> k) -> foldl (tag_step X k) o l = o.
Proof.
  revert o. induction l as [|g l IH]; intros o Hl; cbn [foldl];
    [reflexivity|].
  rewrite IH by (intros g' Hg'; apply Hl, list_elem_of_further, Hg').
  unfold tag_step.
  rewrite bool_decide_eq_false_2 by apply Hl, list_elem_of_here.
  reflexivity.
Qed.

Lemma upsert_row_carries (nd : Time) (o : option (ComponentRow (float X)))
    (c : Component (float X)) :
  carries (upsert_row nd o c) c.
Proof. destruct o; repeat split. Qed.

(** The row under the id of [c] once the statement of [c] was the last
    one for that id. *)
Lemma foldl_upsert_last (nd : Time) (pre post : list (Component (float X)))
    (c : Component (float X)) (m : gmap pystr (ComponentRow (float X))) :
  (forall c', c' ∈ post -> id c' <> id c) ->
  exists row,
    foldl (upsert_into nd) m (pre ++ c :: post) !! id c = Some row /\
    carries row c.
Proof.
  intros Hpost. rewrite lookup_foldl_upsert, foldl_app. cbn [foldl].
  rewrite component_steps_other by exact Hpost.
  unfold component_step at 1. rewrite bool_decide_eq_true_2 by reflexivity.
  eexists. split; [reflexivity|]. apply upsert_row_carries.
Qed.

Lemma foldl_attribute_last (pre post : list Attribute) (a : Attribute)
    (m : gmap (pystr * pystr) pystr) :
  (forall a', a' ∈ post -> attribute_key_of a' <> attribute_key_of a) ->
  foldl set_attribute m (pre ++ a :: post) !! attribute_key_of a
  = Some (attribute_value a).
Proof.
  intros Hpost. rewrite lookup_foldl_attribute, foldl_app. cbn [foldl].
  rewrite attribute_steps_other by exact Hpost.
  unfold attribute_step. rewrite bool_decide_eq_true_2; reflexivity.
Qed.

Lemma foldl_tag_first (pre post : list Tag) (g : Tag)
    (m : gmap (pystr * pystr) pystr) :
  m !! tag_key X g = None ->
  (forall g', g' ∈ pre -> tag_key X g' <> tag_key X g) ->
  foldl (add_tag X) m (pre ++ g :: post) !! tag_key X g = Some (tag g).
Proof.
  intros Hm Hpre. rewrite lookup_foldl_tag, foldl_app. cbn [foldl].
  rewrite (tag_steps_other _ pre) by exact Hpre. rewrite Hm.
  unfold tag_step at 2. rewrite bool_decide_eq_true_2 by reflexivity.
  apply tag_steps_Some.
Qed.

Lemma component_steps_keep (nd : Time) (k : pystr)
    (cs : list (Component (float X))) (old : ComponentRow (float X)) :
  exists row,
    foldl (component_step nd k) (Some old) cs = Some row /\
    identity_of row = identity_of old.
Proof.
  destruct (component_steps_identity X nd k cs old) as (row & H & Hi & Hc & Hn).
  exists row. split; [exact H|]. unfold identity_of. congruence.
Qed.

Lemma attribute_steps_keep (k : pystr * pystr) (l : list Attribute)
    (o : option pystr) :
  is_Some o -> is_Some (foldl (attribute_step k) o l).
Proof.
  revert o. induction l as [|a l IH]; intros o Ho; cbn [foldl];
    [exact Ho|].
  apply IH. unfold attribute_step. destruct (bool_decide _); eauto.
Qed.

End MoreTables.

Section MoreCalls.
Context (X : Externals).


(** X8. Within one file the last line for a key decides: after the call,
    the row of [components] under the id of a component carries the
    columns of the last component built with that id, and the row of
    [component_attributes] under a key holds the value of the last
    attribute record with that key. *)
Theorem last_row_of_a_file_wins (cat : pystr) (rows : list raw_row)
    (w w' : World (float X)) :
  upsert_components X cat rows w = Returned tt w' ->
  exists p,
    normalize_rows X (utcnow X (clock_reads w)) cat rows no_payloads = Ok p /\
    (forall pre c post,
       components_payload p = pre ++ c :: post ->
       (forall c', c' ∈ post -> id c' <> id c) ->
       exists row, components (committed (conn w')) !! id c = Some row /\
                   carries row c) /\
    (forall pre a post,
       attr_payload p = pre ++ a :: post ->
       (forall a', a' ∈ post -> attribute_key_of a' <> attribute_key_of a) ->
       component_attributes (committed (conn w')) !! attribute_key_of a
       = Some (attribute_value a)).
Proof.
  intros H. apply upsert_components_returned in H as (p & Hp & _ & ->).
  exists p. split; [exact Hp|]. world_simpl.
  destruct (apply_statements X (pg_now X (txn (conn w))) (pending (conn w)) p)
    as (-> & -> & _).
  split.
  - intros pre c post -> Hpost. apply foldl_upsert_last, Hpost.
  - intros pre a post -> Hpost. apply foldl_attribute_last, Hpost.
Qed.

(** X9. Tags are insert-or-ignore: a tag row that was there before the
    call is there unchanged after it, and among the tag records of the
    file the first one for a new key is the one stored. *)
Theorem first_tag_wins (cat : pystr) (rows : list raw_row)
    (w w' : World (float X)) :
  upsert_components X cat rows w = Returned tt w' ->
  (forall k t, component_tags (pending (conn w)) !! k = Some t ->
               component_tags (committed (conn w')) !! k = Some t) /\
  exists p,
    normalize_rows X (utcnow X (clock_reads w)) cat rows no_payloads = Ok p /\
    forall pre g post,
      tag_payload p = pre ++ g :: post ->
      component_tags (pending (conn w)) !! tag_key X g = None ->
      (forall g', g' ∈ pre -> tag_key X g' <> tag_key X g) ->
      component_tags (committed (conn w')) !! tag_key X g = Some (tag g).
Proof.
  intros H. apply upsert_components_returned in H as (p & Hp & _ & ->).
  world_simpl.
  destruct (apply_statements X (pg_now X (txn (conn w))) (pending (conn w)) p)
    as (_ & _ & ->).
  split.
  - intros k t Hk. rewrite lookup_foldl_tag, Hk. apply tag_steps_Some.
  - exists p. split; [exact Hp|].
    intros pre g post -> Hnew Hpre. apply foldl_tag_first; assumption.
Qed.

(** A call never deletes. *)
Lemma call_deletes_nothing (cat : pystr) (rows : list raw_row)
    (w w' : World (float X)) :
  upsert_components X cat rows w = Returned tt w' ->
  nothing_deleted X (pending (conn w)) (committed (conn w')).
Proof.
  intros H. apply upsert_components_returned in H as (p & Hp & _ & ->).
  world_simpl.
  destruct (apply_statements X (pg_now X (txn (conn w))) (pending (conn w)) p)
    as (Hc & Ha & Hg).
  unfold nothing_deleted. rewrite Hc, Ha, Hg. split; [|split].
  - intros k old Hk. rewrite lookup_foldl_upsert, Hk.
    apply component_steps_keep.
  - intros k Hk. rewrite lookup_foldl_attribute.
    apply attribute_steps_keep, Hk.
  - intros k t Hk. rewrite lookup_foldl_tag, Hk. apply tag_steps_Some.
Qed.

End MoreCalls.

(** ** What was printed is never read back *)

Section Console.
Context (X : Externals).

Lemma same_database_refl {F : Type} (w : World F) : same_database w w.
Proof. split; reflexivity. Qed.

Lemma bind_same {A B : Type} (m m' : M (float X) A)
    (f f' : A -> M (float X) B) (w w' : World (float X)) :
  same_outcome (m w) (m' w') ->
  (forall a w1 w1', same_database w1 w1' -> same_outcome (f a w1) (f' a w1')) ->
  same_outcome ((m ≫= f) w) ((m' ≫= f') w').
Proof.
  intros Hm Hf. unfold_bind.
  destruct (m w) as [a w1|e w1], (m' w') as [a' w1'|e' w1']; cbn in Hm;
    try contradiction.
  - destruct Hm as [<- Hw]. apply Hf, Hw.
  - exact Hm.
Qed.

Lemma print_same (m m' : Msg) (w w' : World (float X)) :
  same_database w w' -> same_outcome (print m w) (print m' w').
Proof. intros [Hc Hk]. cbn. repeat split; assumption. Qed.

Lemma print_left_same (m : Msg) (w w' : World (float X)) :
  same_database w w' -> same_database (say m w) w'.
Proof. intros [Hc Hk]. split; assumption. Qed.

Lemma with_conn_same (f : Connection (float X) -> Connection (float X))
    (w w' : World (float X)) :
  same_database w w' -> same_outcome (with_conn f w) (with_conn f w').
Proof.
  intros [Hc Hk]. unfold with_conn, on_conn, same_outcome, same_database.
  cbn [conn clock_reads]. rewrite Hc. auto.
Qed.

Lemma execute_batch_same (stmts : list (Statement (float X))) :
  forall w w', same_database w w' ->
    same_outcome (execute_batch X stmts w) (execute_batch X stmts w').
Proof.
  induction stmts as [|s stmts IH]; intros w w' Hw; cbn [execute_batch].
  - cbn. auto.
  - apply bind_same; [|intros _ w1 w1' H1; apply IH, H1].
    unfold execute. destruct (server_rejects X s).
    + cbn. auto.
    + apply with_conn_same, Hw.
Qed.

Lemma batch_if_any_same {A : Type} (mk : A -> Statement (float X))
    (report : nat -> Msg) (l : list A) (w w' : World (float X)) :
  same_database w w' ->
  same_outcome (batch_if_any X mk report l w) (batch_if_any X mk report l w').
Proof.
  intros Hw. destruct l as [|a l]; cbn [batch_if_any]; [cbn; auto|].
  apply bind_same; [apply execute_batch_same, Hw|].
  intros _ w1 w1' H1. apply print_same, H1.
Qed.

Lemma upsert_components_same (cat : pystr) (rows : list raw_row)
    (w w' : World (float X)) :
  same_database w w' ->
  same_outcome (upsert_components X cat rows w)
               (upsert_components X cat rows w').
Proof.
  intros Hw. unfold upsert_components.
  apply bind_same.
  { destruct Hw as [Hc Hk].
    unfold read_utcnow, tick, same_outcome, same_database.
    cbn [conn clock_reads]. rewrite Hk. auto. }
  intros now w1 w1' H1. apply bind_same.
  { destruct (normalize_rows _ _ _ _ _); cbn; auto. }
  intros p w2 w2' H2.
  apply bind_same; [apply batch_if_any_same, H2|]. intros _ w3 w3' H3.
  apply bind_same; [apply batch_if_any_same, H3|]. intros _ w4 w4' H4.
  apply bind_same; [apply batch_if_any_same, H4|]. intros _ w5 w5' H5.
  apply with_conn_same, H5.
Qed.

Lemma import_file_same (total : nat) (f : CsvFile) (w w' : World (float X)) :
  same_database w w' ->
  same_outcome (import_file X total f w) (import_file X total f w').
Proof.
  intros Hw. unfold import_file.
  apply bind_same; [apply print_same, Hw|]. intros _ w1 w1' H1.
  apply bind_same; [apply print_same, H1|]. intros _ w2 w2' H2.
  apply bind_same.
  { destruct (contents f); cbn; auto. }
  intros rows w3 w3' H3. destruct rows as [|r rows].
  - apply bind_same; [apply print_same, H3|]. intros _ w4 w4' H4. cbn. auto.
  - apply bind_same; [apply upsert_components_same, H3|].
    intros _ w4 w4' H4.
    apply bind_same; [apply print_same, H4|]. intros _ w5 w5' H5. cbn. auto.
Qed.

Lemma import_files_same (files : list CsvFile) :
  forall total w w', same_database w w' ->
    same_outcome (import_files X total files w) (import_files X total files w').
Proof.
  induction files as [|f files IH]; intros total w w' Hw;
    cbn [import_files]; [cbn; auto|].
  apply bind_same; [apply import_file_same, Hw|].
  intros t w1 w1' H1. apply IH, H1.
Qed.

End Console.

(** ** Whole runs *)

Section MoreRuns.
Context (X : Externals).

Lemma import_dataset_no_work (files : list CsvFile) (w : World (float X)) :
  has_components_table (conn w) = false \/ files = [] ->
  import_dataset X files w
  = (false,
     on_conn conn_close
       (says (MsgConnecting
                :: (if has_components_table (conn w) then [MsgNoCsv]
                    else [MsgNoTable; MsgRunSchema]))
             w)).
Proof.
  intros H. unfold import_dataset, import_body. unfold_bind.
  unfold print at 1. cbn [say conn].
  destruct (has_components_table (conn w)); cbn [negb].
  - destruct H as [H| ->]; [discriminate|].
    unfold print, says, say. cbn. rewrite <- app_assoc. reflexivity.
  - unfold print, says, say. cbn. rewrite <- !app_assoc. reflexivity.
Qed.

(** X10. A run that finds no table [components], or no file, returns
    [False] after the line on connecting and the explanation, two lines
    when the table is missing and one when no file is found, and touches
    nothing: no statement, no commit, no reading of the clock; the
    connection is closed all the same. *)
Theorem run_without_table_or_files (files : list CsvFile)
    (w : World (float X)) :
  has_components_table (conn w) = false \/ files = [] ->
  let w' := (import_dataset X files w).2 in
  (import_dataset X files w).1 = false /\
  console w'
  = console w ++ MsgConnecting
                   :: (if has_components_table (conn w) then [MsgNoCsv]
                       else [MsgNoTable; MsgRunSchema]) /\
  committed (conn w') = committed (conn w) /\
  txn (conn w') = txn (conn w) /\
  clock_reads w' = clock_reads w /\
  closed (conn w') = true.
Proof.
  intros H. cbv zeta. rewrite import_dataset_no_work by exact H.
  cbn. split_and!; reflexivity.
Qed.

Lemma nothing_deleted_refl (t : Tables (float X)) : nothing_deleted X t t.
Proof. repeat split; eauto. Qed.

Lemma nothing_deleted_trans (t1 t2 t3 : Tables (float X)) :
  nothing_deleted X t1 t2 -> nothing_deleted X t2 t3 ->
  nothing_deleted X t1 t3.
Proof.
  intros (Hc & Ha & Hg) (Hc' & Ha' & Hg'). split; [|split].
  - intros k old Hk. destruct (Hc k old Hk) as (row & Hrow & Hid).
    destruct (Hc' k row Hrow) as (row' & Hrow' & Hid').
    exists row'. split; [exact Hrow'|congruence].
  - auto.
  - auto.
Qed.

(** The loop keeps the open transaction empty between two files, commits
    only by adding, and reads the clock at most once per file. *)
Lemma import_file_invariant (total : nat) (f : CsvFile)
    (w : World (float X)) :
  pending (conn w) = committed (conn w) ->
  match import_file X total f w with
  | Returned t w' =>
      pending (conn w') = committed (conn w') /\
      nothing_deleted X (committed (conn w)) (committed (conn w')) /\
      (clock_reads w' <= S (clock_reads w))%nat /\
      has_components_table (conn w') = has_components_table (conn w) /\
      exists rows, contents f = Ok rows /\ t = (total + length rows)%nat
  | Raised e w' =>
      committed (conn w') = committed (conn w) /\
      (clock_reads w' <= S (clock_reads w))%nat /\
      has_components_table (conn w') = has_components_table (conn w)
  end.
Proof.
  intros Hp. rewrite import_file_unfold. cbv zeta.
  destruct (contents f) as [[|r rows]|e].
  - cbn. split_and!; auto using nothing_deleted_refl.
    exists []. split; [reflexivity|]. cbn. lia.
  - set (w1 := say _ (say _ w)).
    pose proof (upsert_components_spec X
                  (normalize_category X (stem f)) (r :: rows) w1) as Hspec.
    destruct (normalize_rows _ _ _ _ _) as [p|e].
    + destruct (forallb _ _) eqn:Hacc.
      * pose proof (call_deletes_nothing X _ _ _ _ Hspec) as Hdel.
        rewrite Hspec. cbn in Hdel |- *.
        split_and!; auto; [rewrite <- Hp; exact Hdel|].
        exists (r :: rows). auto.
      * destruct Hspec as (t & msgs & ->). cbn. split_and!; auto.
    + rewrite Hspec. cbn. split_and!; auto.
  - cbn. split_and!; auto.
Qed.

Lemma import_files_invariant (files : list CsvFile) :
  forall total w,
    pending (conn w) = committed (conn w) ->
    match import_files X total files w with
    | Returned t w' =>
        pending (conn w') = committed (conn w') /\
        nothing_deleted X (committed (conn w)) (committed (conn w')) /\
        (clock_reads w' <= clock_reads w + length files)%nat /\
        has_components_table (conn w') = has_components_table (conn w) /\
        Forall (fun f => exists rows, contents f = Ok rows) files /\
        t = (total + rows_read files)%nat
    | Raised e w' =>
        nothing_deleted X (committed (conn w)) (committed (conn w')) /\
        (clock_reads w' <= clock_reads w + length files)%nat /\
        has_components_table (conn w') = has_components_table (conn w)
    end.
Proof.
  induction files as [|f files IH]; intros total w Hp;
    cbn [import_files length rows_read foldr].
  - cbn. split_and!; auto using nothing_deleted_refl; lia.
  - unfold_bind. pose proof (import_file_invariant total f w Hp) as Hf.
    destruct (import_file X total f w) as [t w1|e w1].
    + destruct Hf as (Hp1 & Hdel & Hclk & Ht & rows & Hrows & ->).
      specialize (IH (total + length rows)%nat w1 Hp1).
      fold (rows_read files). rewrite Hrows.
      destruct (import_files X _ files w1) as [t2 w2|e2 w2].
      * destruct IH as (Hp2 & Hdel2 & Hclk2 & Ht2 & Hok & ->).
        split_and!; eauto using nothing_deleted_trans; try lia;
          try congruence.
      * destruct IH as (Hdel2 & Hclk2 & Ht2).
        split_and!; eauto using nothing_deleted_trans; try lia;
          try congruence.
    + destruct Hf as (Hc & Hclk & Ht). rewrite Hc.
      split_and!; auto using nothing_deleted_refl; lia.
Qed.

(** The run as a whole, from a connection with no open work. *)
Lemma import_dataset_invariant (files : list CsvFile) (w : World (float X)) :
  pending (conn w) = committed (conn w) ->
  let w' := (import_dataset X files w).2 in
  closed (conn w') = true /\
  pending (conn w') = committed (conn w') /\
  nothing_deleted X (committed (conn w)) (committed (conn w')) /\
  (clock_reads w' <= clock_reads w + length files)%nat /\
  ((import_dataset X files w).1 = true ->
   has_components_table (conn w) = true /\ files <> [] /\
   Forall (fun f => exists rows, contents f = Ok rows) files /\
   last (console w') = Some (MsgDone (rows_read files))).
Proof.
  intros Hp. cbv zeta.
  assert (Hno : has_components_table (conn w) = false \/ files = [] ->
    closed (conn (import_dataset X files w).2) = true /\
    pending (conn (import_dataset X files w).2)
      = committed (conn (import_dataset X files w).2) /\
    nothing_deleted X (committed (conn w))
                    (committed (conn (import_dataset X files w).2)) /\
    (clock_reads (import_dataset X files w).2
       <= clock_reads w + length files)%nat /\
    ((import_dataset X files w).1 = true ->
     has_components_table (conn w) = true /\ files <> [] /\
     Forall (fun f => exists rows, contents f = Ok rows) files /\
     last (console (import_dataset X files w).2)
       = Some (MsgDone (rows_read files)))).
  { intros H. rewrite import_dataset_no_work by exact H. cbn.
    split_and!; auto using nothing_deleted_refl; try lia; discriminate. }
  destruct (has_components_table (conn w)) eqn:Ht; [|auto].
  destruct (decide (files = [])) as [Hfiles|Hne]; [auto|]. clear Hno.
  rewrite import_dataset_loop by assumption.
  pose proof (import_files_invariant files 0%nat
                (at_loop_entry (length files) w) Hp) as H.
  destruct (import_files X 0 files _) as [t w1|e w1].
  - destruct H as (Hp1 & Hdel & Hclk & _ & Hok & ->).
    cbn in *. split_and!; auto. intros _. split_and!; auto;
      apply last_snoc.
  - destruct H as (Hdel & Hclk & _). cbn in *.
    split_and!; auto; discriminate.
Qed.

Lemma rows_read_cons (f : CsvFile) (files : list CsvFile) :
  rows_read (f :: files)
  = match contents f with
    | Ok rows => (length rows + rows_read files)%nat
    | Raise _ => rows_read files
    end.
Proof. reflexivity. Qed.

Lemma import_files_total (files : list CsvFile) :
  forall total w t w',
    import_files X total files w = Returned t w' ->
    Forall (fun f => exists rows, contents f = Ok rows) files /\
    t = (total + rows_read files)%nat.
Proof.
  induction files as [|f files IH]; intros total w t w' H;
    cbn [import_files] in H.
  - injection H as <- _. split; [constructor|cbn; lia].
  - unfold_bind. rewrite import_file_unfold in H. cbv zeta in H.
    rewrite rows_read_cons.
    destruct (contents f) as [[|r rows]|e] eqn:Hc; [| |discriminate].
    + apply IH in H as [Hok ->]. split; [constructor; eauto|]. cbn. lia.
    + destruct (upsert_components _ _ _ _) as [u w2|e w2]; [|discriminate].
      apply IH in H as [Hok ->]. split; [constructor; eauto|].
      cbn [length]. lia.
Qed.

(** X11. Whatever happens in a run started on a connection with no open
    work, the connection ends closed with nothing pending, no row that
    was committed before the run is gone (components keep their id,
    category and name, attribute keys stay bound, tags stay as they
    were), and the clock was read at most once per file. *)
Theorem run_closes_and_never_deletes (files : list CsvFile)
    (w : World (float X)) :
  pending (conn w) = committed (conn w) ->
  let w' := (import_dataset X files w).2 in
  closed (conn w') = true /\
  pending (conn w') = committed (conn w') /\
  nothing_deleted X (committed (conn w)) (committed (conn w')) /\
  (clock_reads w' <= clock_reads w + length files)%nat.
Proof.
  intros Hp.
  destruct (import_dataset_invariant files w Hp) as (H1 & H2 & H3 & H4 & _).
  auto.
Qed.

(** X12. A run returns [True] only if the table was there, at least one
    file was found and every file could be read; its last line then
    gives as the number of components processed the number of lines
    read, the lines without a name included. *)
Theorem successful_run_counts_lines (files : list CsvFile)
    (w : World (float X)) :
  (import_dataset X files w).1 = true ->
  has_components_table (conn w) = true /\
  files <> [] /\
  Forall (fun f => exists rows, contents f = Ok rows) files /\
  last (console (import_dataset X files w).2)
    = Some (MsgDone (rows_read files)).
Proof.
  destruct (has_components_table (conn w)) eqn:Ht;
    [|rewrite import_dataset_no_work by auto; discriminate].
  destruct (decide (files = [])) as [Hfiles|Hne];
    [rewrite import_dataset_no_work by auto; discriminate|].
  rewrite import_dataset_loop by assumption.
  destruct (import_files X 0 files _) as [t w1|e w1] eqn:H; [|discriminate].
  intros _. apply import_files_total in H as [Hok ->].
  split_and!; auto. cbn. apply last_snoc.
Qed.

Lemma on_conn_same (f : Connection (float X) -> Connection (float X))
    (w w' : World (float X)) :
  same_database w w' -> same_database (on_conn f w) (on_conn f w').
Proof.
  intros [Hc Hk]. unfold same_database, on_conn. cbn [conn clock_reads].
  rewrite Hc. auto.
Qed.

Lemma say_same (m m' : Msg) (w w' : World (float X)) :
  same_database w w' -> same_database (say m w) (say m' w').
Proof. intros [Hc Hk]. split; assumption. Qed.

(** X13. A file with no line is passed over: with at least one other
    file in the directory, the run returns the same value and leaves the
    connection and the clock as it does without that file. *)
Theorem empty_file_changes_nothing (before after : list CsvFile)
    (f : CsvFile) (w : World (float X)) :
  contents f = Ok [] ->
  before ++ after <> [] ->
  (import_dataset X (before ++ f :: after) w).1
  = (import_dataset X (before ++ after) w).1 /\
  same_database (import_dataset X (before ++ f :: after) w).2
                (import_dataset X (before ++ after) w).2.
Proof.
  intros Hf Hne.
  destruct (has_components_table (conn w)) eqn:Ht.
  2:{ rewrite !import_dataset_no_work by auto. rewrite Ht. cbn.
      split; [reflexivity|]. split; reflexivity. }
  rewrite !import_dataset_loop
    by (assumption || (destruct before; discriminate)).
  rewrite !import_files_app.
  set (w0 := at_loop_entry (length (before ++ f :: after)) w).
  set (w0' := at_loop_entry (length (before ++ after)) w).
  assert (H0 : same_database w0 w0') by (split; reflexivity).
  pose proof (import_files_same X before 0%nat w0 w0' H0) as Hb.
  destruct (import_files X 0 before w0) as [t w1|e w1],
           (import_files X 0 before w0') as [t' w1'|e' w1'];
    cbn in Hb; try contradiction.
  - destruct Hb as [<- H1]. cbn [import_files]. unfold_bind.
    rewrite import_file_unfold. cbv zeta. rewrite Hf.
    match goal with |- context [import_files X t after ?u] =>
      assert (Hu : same_database u w1')
        by (repeat apply print_left_same; exact H1);
      pose proof (import_files_same X after t u w1' Hu) as Ha;
      destruct (import_files X t after u) as [t2 w2|e2 w2]
    end;
    destruct (import_files X t after w1') as [t2' w2'|e2' w2'];
      cbn in Ha; try contradiction; destruct Ha as [<- H2];
      cbn [fst snd]; (split; [reflexivity|]).
    + apply on_conn_same, say_same, H2.
    + unfold after_failure. apply on_conn_same, on_conn_same, say_same, H2.
  - destruct Hb as [<- H1]. cbn [fst snd]. split; [reflexivity|].
    unfold after_failure. apply on_conn_same, on_conn_same, say_same, H1.
Qed.

End MoreRuns.

(** ** The two scripts *)

Section TwoScripts.
Context (X : Externals).

Lemma alias_map_extends :
  ALIAS_MAP
  = <[py "stock" := py "in_stock"]>
      (<[py "available" := py "in_stock"]> DatasetScript.ALIAS_MAP).
Proof. vm_compute. reflexivity. Qed.

Lemma alias_lookup (f : pystr) :
  ALIAS_MAP !! f
  = if bool_decide (f ∈ STOCK_ALIASES) then Some (py "in_stock")
    else DatasetScript.ALIAS_MAP !! f.
Proof.
  rewrite alias_map_extends. unfold STOCK_ALIASES. cbn [map].
  rewrite !lookup_insert.
  destruct (decide (py "stock" = f)) as [<-|H1].
  { rewrite bool_decide_eq_true_2 by apply list_elem_of_here. reflexivity. }
  destruct (decide (py "available" = f)) as [<-|H2].
  { rewrite bool_decide_eq_true_2
      by apply list_elem_of_further, list_elem_of_here.
    reflexivity. }
  rewrite bool_decide_eq_false_2; [reflexivity|].
  intros [?|[?|H]%elem_of_cons]%elem_of_cons; [congruence|congruence|].
  inversion H.
Qed.

Lemma old_alias_not_stock (f : pystr) :
  f ∈ STOCK_ALIASES -> DatasetScript.ALIAS_MAP !! f = None.
Proof.
  unfold STOCK_ALIASES. cbn [map].
  intros [->|[->|H]%elem_of_cons]%elem_of_cons;
    [vm_compute; reflexivity|vm_compute; reflexivity|inversion H].
Qed.

Lemma alias_tables_agree (k : pystr) :
  (py_lower X (strip k) ∉ STOCK_ALIASES ->
   DatasetScript.normalize_field X k = normalize_field X k) /\
  (py_lower X (strip k) ∈ STOCK_ALIASES ->
   DatasetScript.normalize_field X k = py_lower X (strip k) /\
   normalize_field X k = py "in_stock").
Proof.
  unfold DatasetScript.normalize_field, normalize_field.
  rewrite alias_lookup. split; intros Hf.
  - rewrite bool_decide_eq_false_2 by exact Hf. reflexivity.
  - rewrite bool_decide_eq_true_2 by exact Hf.
    rewrite old_alias_not_stock by exact Hf. split; reflexivity.
Qed.

(** X14. The alias table of the later script is that of the earlier one
    with [stock] and [available] added: the two scripts give a column the
    same normalised name unless its trimmed, lower-cased name is one of
    these two, which the earlier script keeps as it is and the later one
    files under [in_stock]. *)
Theorem normalize_field_across_scripts (k : pystr) :
  let f := py_lower X (strip k) in
  (f ∉ STOCK_ALIASES ->
   DatasetScript.normalize_field X k = normalize_field X k) /\
  (f ∈ STOCK_ALIASES ->
   DatasetScript.normalize_field X k = f /\
   normalize_field X k = py "in_stock").
Proof. exact (alias_tables_agree k). Qed.

Lemma true_words_extend (s : pystr) :
  s ∈ TRUE_WORDS <->
  s ∈ DatasetScript.TRUE_WORDS \/ s = py "available" \/ s = py "in stock".
Proof.
  unfold TRUE_WORDS, DatasetScript.TRUE_WORDS.
  rewrite !elem_of_list_to_set. cbn [map]. rewrite !elem_of_cons.
  rewrite !elem_of_nil. tauto.
Qed.

Lemma false_words_extend (s : pystr) :
  s ∈ FALSE_WORDS <->
  s ∈ DatasetScript.FALSE_WORDS \/ s = py "out of stock"
  \/ s = py "unavailable".
Proof.
  unfold FALSE_WORDS, DatasetScript.FALSE_WORDS.
  rewrite !elem_of_list_to_set. cbn [map]. rewrite !elem_of_cons.
  rewrite !elem_of_nil. tauto.
Qed.

Lemma new_stock_words (s : pystr) :
  s ∈ NEW_STOCK_WORDS <->
  s = py "available" \/ s = py "in stock" \/ s = py "out of stock"
  \/ s = py "unavailable".
Proof.
  unfold NEW_STOCK_WORDS. cbn [map]. rewrite !elem_of_cons, !elem_of_nil.
  tauto.
Qed.

Lemma new_stock_words_were_unknown (s : pystr) :
  s ∈ NEW_STOCK_WORDS ->
  (s ∉ DatasetScript.TRUE_WORDS) /\ (s ∉ DatasetScript.FALSE_WORDS).
Proof.
  intros Hs. apply new_stock_words in Hs.
  unfold DatasetScript.TRUE_WORDS, DatasetScript.FALSE_WORDS.
  rewrite !elem_of_list_to_set. cbn [map].
  destruct Hs as [-> | [-> | [-> | ->]]]; split; intros H;
    repeat (apply elem_of_cons in H as [H|H]; [discriminate H|]);
    inversion H.
Qed.

Lemma bool_from_value_agree (s : pystr) :
  py_lower X (strip s) ∉ NEW_STOCK_WORDS ->
  DatasetScript.bool_from_value X (Some s) = bool_from_value X (Some s).
Proof.
  intros Hnew. cbn [DatasetScript.bool_from_value bool_from_value].
  set (word := py_lower X (strip s)) in *.
  rewrite new_stock_words in Hnew.
  destruct (bool_decide (word ∈ DatasetScript.TRUE_WORDS)) eqn:Ht.
  - apply bool_decide_eq_true in Ht.
    rewrite bool_decide_eq_true_2 by (apply true_words_extend; auto).
    reflexivity.
  - apply bool_decide_eq_false in Ht.
    rewrite (bool_decide_eq_false_2 (word ∈ TRUE_WORDS))
      by (rewrite true_words_extend; tauto).
    destruct (bool_decide (word ∈ DatasetScript.FALSE_WORDS)) eqn:Hf.
    + apply bool_decide_eq_true in Hf.
      rewrite bool_decide_eq_true_2 by (apply false_words_extend; auto).
      reflexivity.
    + apply bool_decide_eq_false in Hf.
      rewrite bool_decide_eq_false_2
        by (rewrite false_words_extend; tauto).
      reflexivity.
Qed.

(** X15. The later script only learnt words: whatever the earlier
    [bool_from_value] recognises, the later one reads the same way, and
    the two differ exactly on [available], [in stock], [out of stock] and
    [unavailable], which the earlier one answers with [None]. *)
Theorem bool_from_value_across_scripts (s : pystr) :
  (forall b, DatasetScript.bool_from_value X (Some s) = Some b ->
             bool_from_value X (Some s) = Some b) /\
  (DatasetScript.bool_from_value X (Some s) <> bool_from_value X (Some s)
   <-> py_lower X (strip s) ∈ NEW_STOCK_WORDS) /\
  (py_lower X (strip s) ∈ NEW_STOCK_WORDS ->
   DatasetScript.bool_from_value X (Some s) = None /\
   is_Some (bool_from_value X (Some s))).
Proof.
  set (word := py_lower X (strip s)).
  assert (Hnew : word ∈ NEW_STOCK_WORDS ->
            DatasetScript.bool_from_value X (Some s) = None /\
            is_Some (bool_from_value X (Some s))).
  { intros Hw. pose proof (new_stock_words_were_unknown _ Hw) as [Ht Hf].
    cbn [DatasetScript.bool_from_value bool_from_value]. fold word.
    rewrite !bool_decide_eq_false_2 by assumption. split; [reflexivity|].
    apply new_stock_words in Hw.
    destruct (bool_decide (word ∈ TRUE_WORDS)) eqn:E; [eauto|].
    apply bool_decide_eq_false in E. rewrite true_words_extend in E.
    rewrite bool_decide_eq_true_2; [eauto|].
    apply false_words_extend. tauto. }
  destruct (decide (word ∈ NEW_STOCK_WORDS)) as [Hw|Hw].
  - destruct (Hnew Hw) as [Hold [b Hb]]. split_and!; [| |exact Hnew].
    + intros b' Hb'. congruence.
    + split; [auto|]. intros _. congruence.
  - pose proof (bool_from_value_agree s Hw) as Heq. split_and!; [| |exact Hnew].
    + intros b Hb. congruence.
    + split; [intros Hne; contradiction|contradiction].
Qed.

End TwoScripts.

Section TwoScriptsRows.
Context (X : Externals).

Lemma ds_normalize_raw_snoc (raw : raw_row) (it : raw_item) :
  DatasetScript.normalize_raw X (raw ++ [it])
  = DatasetScript.normalize_item X (DatasetScript.normalize_raw X raw) it.
Proof. unfold DatasetScript.normalize_raw. apply foldl_snoc. Qed.



Lemma product_url_same (a : option pystr) :
  py_or a None
  = (if truthy (Some (default [] (py_or (py_or a None) (Some []))))
     then Some (default [] (py_or (py_or a None) (Some [])))
     else None).
Proof. destruct a as [[|c s]|]; reflexivity. Qed.


Lemma ds_normalize_raw_alike (raw : raw_row) :
  (forall k v, Field k v ∈ raw -> k <> [] ->
               py_lower X (strip k) ∉ STOCK_ALIASES) ->
  DatasetScript.normalize_raw X raw = normalize_raw X raw.
Proof.
  induction raw as [|it raw IH] using rev_ind; intros Hraw; [reflexivity|].
  rewrite ds_normalize_raw_snoc, normalize_raw_snoc.
  rewrite IH by (intros k v Hin; apply (Hraw k v), elem_of_app; auto).
  destruct it as [k v|extra];
    cbn [DatasetScript.normalize_item normalize_item]; [|reflexivity].
  destruct k as [|c k]; [reflexivity|]. cbn [truthy].
  destruct (alias_tables_agree X (c :: k)) as [-> _];
    [reflexivity|].
  apply (Hraw (c :: k) v); [|discriminate].
  apply elem_of_app. right. apply list_elem_of_here.
Qed.

Lemma process_row_alike (now : Time) (cat : pystr) (raw : raw_row) :
  read_alike X raw ->
  DatasetScript.process_row X now cat raw = process_row X now cat raw.
Proof.
  intros [Hcols Hword].
  unfold DatasetScript.process_row, process_row, row_product_url, row_in_stock.
  cbv zeta. rewrite (ds_normalize_raw_alike raw Hcols).
  rewrite !normalize_raw_no_url.
  set (n := normalize_raw X raw) in *. unfold_bind.
  destruct (negb (truthy (dict_get n (py "name")))); [reflexivity|].
  destruct (hash_component_id _ _ _) as [cid|e]; [|reflexivity].
  destruct (parse_if_present (py_float X) (dict_get n (py "price")))
    as [pr|e]; [|reflexivity].
  destruct (parse_if_present (py_float X) (dict_get n (py "previous_price")))
    as [pp|e]; [|reflexivity].
  destruct (parse_if_present (py_int X) (dict_get n (py "stock_units")))
    as [su|e]; [|reflexivity].
  rewrite <- product_url_same.
  destruct (dict_get n (py "in_stock")) as [s|] eqn:Hs; [|reflexivity].
  rewrite (bool_from_value_agree X s) by (apply Hword; reflexivity).
  reflexivity.
Qed.

Lemma normalize_rows_alike (now : Time) (cat : pystr) (rows : list raw_row) :
  Forall (read_alike X) rows ->
  forall acc,
    DatasetScript.normalize_rows X now cat rows acc
    = normalize_rows X now cat rows acc.
Proof.
  induction 1 as [|raw rows Hraw _ IH]; intros acc;
    cbn [DatasetScript.normalize_rows normalize_rows]; [reflexivity|].
  rewrite (process_row_alike now cat raw Hraw).
  destruct (process_row X now cat raw) as [[r|]|e]; auto.
Qed.

Lemma execute_batch_or_batch_if_any {A : Type}
    (mk : A -> Statement (float X)) (report : nat -> Msg) (l : list A)
    (w w' : World (float X)) :
  same_database w w' ->
  same_outcome (execute_batch X (mk <$> l) w) (batch_if_any X mk report l w').
Proof.
  intros Hw. destruct l as [|a l]; [cbn; auto|].
  unfold batch_if_any. unfold_bind.
  pose proof (execute_batch_same X (mk <$> a :: l) w w' Hw) as H.
  destruct (execute_batch X (mk <$> a :: l) w) as [u w1|e w1],
           (execute_batch X (mk <$> a :: l) w') as [u' w1'|e' w1'];
    cbn in H; try contradiction; [|exact H].
  destruct H as [_ [Hc Hk]]. unfold print, same_outcome, same_database, say.
  cbn [conn clock_reads]. destruct u. auto.
Qed.

(** X17. On a file whose rows have no column named by a stock alias and
    no stock word of the later list, the two versions of
    [upsert_components] end the same way and leave the same tables,
    committed and pending, and the same clock: the later script differs
    only by the lines it prints. *)
Theorem upsert_components_across_scripts (cat : pystr) (rows : list raw_row)
    (w : World (float X)) :
  Forall (read_alike X) rows ->
  same_outcome (DatasetScript.upsert_components X cat rows w)
               (upsert_components X cat rows w).
Proof.
  intros Hrows. unfold DatasetScript.upsert_components, upsert_components.
  apply bind_same.
  { unfold read_utcnow, same_outcome, same_database. auto. }
  intros now w1 w1' H1. rewrite (normalize_rows_alike now cat rows Hrows).
  apply bind_same.
  { destruct (normalize_rows _ _ _ _ _); cbn; auto. }
  intros p w2 w2' H2.
  apply bind_same; [apply execute_batch_or_batch_if_any, H2|].
  intros _ w3 w3' H3.
  apply bind_same; [apply execute_batch_or_batch_if_any, H3|].
  intros _ w4 w4' H4.
  apply bind_same; [apply execute_batch_or_batch_if_any, H4|].
  intros _ w5 w5' H5. apply with_conn_same, H5.
Qed.

End TwoScriptsRows.

Section EarlierRuns.
Context (X : Externals).

Lemma execute_batch_committed (stmts : list (Statement (float X)))
    (w : World (float X)) :
  exists t, world_of (execute_batch X stmts w) = set_pending t w.
Proof.
  destruct (execute_batch_spec X stmts w) as [[_ ->]|[_ [t' ->]]];
    cbn [world_of]; eauto.
Qed.

Lemma ds_upsert_components_raised (cat : pystr) (rows : list raw_row)
    (w w' : World (float X)) (e : exn) :
  DatasetScript.upsert_components X cat rows w = Raised e w' ->
  committed (conn w') = committed (conn w).
Proof.
  unfold DatasetScript.upsert_components, read_utcnow. unfold_bind.
  destruct (DatasetScript.normalize_rows _ _ _ _ _) as [p|e0]; cbn [lift];
    unfold_bind; [|intros [= _ <-]; reflexivity].
  cbv beta.
  destruct (execute_batch_committed (UpsertComponent <$> components_payload p)
              (tick w)) as [t1 H1].
  destruct (execute_batch X (UpsertComponent <$> components_payload p) (tick w))
    as [u1 w1|e1 w1]; cbn [world_of] in H1; subst w1;
    [|intros [= _ <-]; reflexivity].
  match goal with |- context [execute_batch X (UpsertAttribute <$> _) ?u] =>
    destruct (execute_batch_committed (UpsertAttribute <$> attr_payload p) u)
      as [t2 H2];
    destruct (execute_batch X (UpsertAttribute <$> attr_payload p) u)
      as [u2 w2|e2 w2]; cbn [world_of] in H2; subst w2;
      [|intros [= _ <-]; reflexivity]
  end.
  match goal with |- context [execute_batch X (InsertTag <$> _) ?u] =>
    destruct (execute_batch_committed (InsertTag <$> tag_payload p) u)
      as [t3 H3];
    destruct (execute_batch X (InsertTag <$> tag_payload p) u)
      as [u3 w3|e3 w3]; cbn [world_of] in H3; subst w3;
      [|intros [= _ <-]; reflexivity]
  end.
  discriminate.
Qed.

Lemma ds_import_files_app (l1 l2 : list CsvFile) :
  forall out w,
    DatasetScript.import_files X (l1 ++ l2) out w
    = match DatasetScript.import_files X l1 out w with
      | (None, out1, w1) => DatasetScript.import_files X l2 out1 w1
      | (Some e, out1, w1) => (Some e, out1, w1)
      end.
Proof.
  induction l1 as [|f l1 IH]; intros out w;
    cbn [app DatasetScript.import_files]; [reflexivity|].
  destruct (contents f) as [[|r rows]|e]; [apply IH| |reflexivity].
  destruct (DatasetScript.upsert_components _ _ _ _); [apply IH|reflexivity].
Qed.

Lemma ds_import_file_raised (f : CsvFile) (out out' : list DatasetScript.Line)
    (w w' : World (float X)) (e : exn) :
  DatasetScript.import_files X [f] out w = (Some e, out', w') ->
  committed (conn w') = committed (conn w).
Proof.
  cbn [DatasetScript.import_files].
  destruct (contents f) as [[|r rows]|e0].
  - discriminate.
  - destruct (DatasetScript.upsert_components _ _ _ _) as [u w1|e1 w1] eqn:Hup;
      [discriminate|].
    intros [= _ _ <-]. eapply ds_upsert_components_raised, Hup.
  - intros [= _ _ <-]. reflexivity.
Qed.

(** X18. The earlier script has no [except] clause: when the import of a
    file raises, after the files before it went through, the exception
    leaves [import_dataset], nothing more is printed and no file after
    it is read. The connection is closed on the way out, which drops the
    statements of the failing file; what the earlier files committed
    stays committed. *)
Theorem earlier_script_lets_the_exception_through
    (before after : list CsvFile) (f : CsvFile)
    (w wk wf : World (float X)) (out out' : list DatasetScript.Line) (e : exn) :
  DatasetScript.import_files X before [] w = (None, out, wk) ->
  DatasetScript.import_files X [f] out wk = (Some e, out', wf) ->
  DatasetScript.import_dataset X (before ++ f :: after) w
  = (Some e, out', on_conn conn_close wf) /\
  committed (conn (on_conn conn_close wf)) = committed (conn wk) /\
  pending (conn (on_conn conn_close wf)) = committed (conn wk) /\
  closed (conn (on_conn conn_close wf)) = true.
Proof.
  intros Hbefore Hf.
  pose proof (ds_import_file_raised _ _ _ _ _ _ Hf) as Hcom.
  split; [|cbn; auto].
  unfold DatasetScript.import_dataset.
  destruct (before ++ f :: after) as [|f0 l0] eqn:Hl;
    [destruct before; discriminate|].
  rewrite <- Hl. rewrite ds_import_files_app, Hbefore.
  change (f :: after) with ([f] ++ after).
  rewrite ds_import_files_app, Hf. reflexivity.
Qed.

End EarlierRuns.

(** ** Further examples on concrete rows and files *)

(** [" Stock "] is an alias: it ends under a standard field. *)
Lemma no_alias_survives_witness :
  normalize_field ascii_externals (py " Stock ") ∈ STANDARD_FIELDS.
Proof.
  apply (no_alias_survives ascii_externals (py " Stock ")).
  exists (py "in_stock"). vm_refl.
Defined.

(** [stock] then [Available]: the second one gives [in_stock]. *)
Lemma last_column_wins_witness :
  dict_get (normalize_raw ascii_externals
              ([Field (py "stock") (Some (py "yes"))]
                 ++ Field (py "Available") (Some (py " no "))
                 :: [Field (py "name") (Some (py "Core i5"))]))
           (normalize_field ascii_externals (py "Available"))
  = strip <$> Some (py " no ").
Proof.
  apply (last_column_wins ascii_externals
           [Field (py "stock") (Some (py "yes"))]
           [Field (py "name") (Some (py "Core i5"))]
           (py "Available") (Some (py " no "))).
  - py_neq.
  - intros it Hin.
    repeat (apply elem_of_cons in Hin as [-> | Hin];
            [vm_compute; discriminate|]).
    inversion Hin.
Defined.

Lemma attributes_are_the_other_columns_witness :
  exists r,
    process_row ascii_externals 7 (py "GPU") rtx_row = Ok (Some r) /\
    NoDup (attribute_key <$> row_attrs r) /\
    forall a, a ∈ row_attrs r <->
      (attr_component_id a = id (row_component r) /\
       (attribute_key a ∉ STANDARD_FIELDS) /\
       attribute_value a <> [] /\
       dict_get (normalize_raw ascii_externals rtx_row) (attribute_key a)
         = Some (attribute_value a)).
Proof.
  eexists. split; [vm_compute; reflexivity|].
  apply (attributes_are_the_other_columns ascii_externals 7 (py "GPU")
           rtx_row).
  vm_compute. reflexivity.
Defined.


Lemma component_texts_are_trimmed_witness :
  exists r,
    process_row ascii_externals 7 (py "GPU") padded_row = Ok (Some r) /\
    let c := row_component r in
    trimmed (name c) /\
    (forall s, brand c = Some s -> trimmed s) /\
    (forall s, image_url c = Some s -> trimmed s) /\
    (forall s, product_url c = Some s -> trimmed s) /\
    (forall a, a ∈ row_attrs r -> trimmed (attribute_value a)).
Proof.
  eexists. split; [vm_compute; reflexivity|].
  apply (component_texts_are_trimmed ascii_externals 7 (py "GPU") padded_row).
  vm_compute. reflexivity.
Defined.

Lemma one_component_per_named_row_witness :
  exists p,
    normalize_rows ascii_externals 7 (py "CPU")
                   [intel_row; nameless_row; yes_row] no_payloads = Ok p /\
    Forall2 (fun raw c =>
               exists r,
                 process_row ascii_externals 7 (py "CPU") raw = Ok (Some r) /\
                 row_component r = c)
            (named_rows ascii_externals [intel_row; nameless_row; yes_row])
            (components_payload p) /\
    length (components_payload p)
      = length (named_rows ascii_externals [intel_row; nameless_row; yes_row])
    /\
    (length (components_payload p) <= length (tag_payload p)
     <= 2 * length (components_payload p))%nat.
Proof.
  eexists. split; [vm_compute; reflexivity|].
  apply (one_component_per_named_row ascii_externals 7 (py "CPU")
           [intel_row; nameless_row; yes_row]).
  vm_compute. reflexivity.
Defined.

Lemma last_row_of_a_file_wins_witness :
  exists p,
    normalize_rows ascii_externals 0 (py "CPU") [intel_row; intel_again_row]
                   no_payloads = Ok p /\
    (forall pre c post,
       components_payload p = pre ++ c :: post ->
       (forall c', c' ∈ post -> id c' <> id c) ->
       exists row,
         components (committed (conn intel_twice_imported)) !! id c
           = Some row /\
         carries row c) /\
    (forall pre a post,
       attr_payload p = pre ++ a :: post ->
       (forall a', a' ∈ post -> attribute_key_of a' <> attribute_key_of a) ->
       component_attributes (committed (conn intel_twice_imported))
         !! attribute_key_of a
       = Some (attribute_value a)).
Proof.
  apply (last_row_of_a_file_wins ascii_externals (py "CPU")
           [intel_row; intel_again_row] fresh_world intel_twice_imported).
  vm_refl.
Defined.

Lemma first_tag_wins_witness :
  (forall k t,
     component_tags (pending (conn (@fresh_world (Z * nat)))) !! k = Some t ->
     component_tags (committed (conn intel_twice_imported)) !! k = Some t) /\
  exists p,
    normalize_rows ascii_externals 0 (py "CPU") [intel_row; intel_again_row]
                   no_payloads = Ok p /\
    forall pre g post,
      tag_payload p = pre ++ g :: post ->
      component_tags (pending (conn (@fresh_world (Z * nat))))
        !! tag_key ascii_externals g = None ->
      (forall g', g' ∈ pre ->
                  tag_key ascii_externals g' <> tag_key ascii_externals g) ->
      component_tags (committed (conn intel_twice_imported))
        !! tag_key ascii_externals g
      = Some (tag g).
Proof.
  apply (first_tag_wins ascii_externals (py "CPU")
           [intel_row; intel_again_row] fresh_world intel_twice_imported).
  vm_refl.
Defined.

Lemma run_without_table_or_files_witness :
  let w' := (import_dataset ascii_externals [gpu_file] no_schema_world).2 in
  (import_dataset ascii_externals [gpu_file] no_schema_world).1 = false /\
  console w' = [MsgConnecting; MsgNoTable; MsgRunSchema] /\
  committed (conn w') = empty_tables /\
  txn (conn w') = 0%nat /\
  clock_reads w' = 0%nat /\
  closed (conn w') = true.
Proof.
  apply (run_without_table_or_files ascii_externals [gpu_file]
           no_schema_world).
  left. reflexivity.
Defined.

Lemma run_closes_and_never_deletes_witness :
  let w' := (import_dataset ascii_externals [case_file; bad_cpu_file]
                            rtx_imported).2 in
  closed (conn w') = true /\
  pending (conn w') = committed (conn w') /\
  nothing_deleted ascii_externals (committed (conn rtx_imported))
                  (committed (conn w')) /\
  (clock_reads w' <= clock_reads rtx_imported + 2)%nat.
Proof.
  apply (run_closes_and_never_deletes ascii_externals
           [case_file; bad_cpu_file] rtx_imported).
  vm_refl.
Defined.

Lemma successful_run_counts_lines_witness :
  has_components_table (conn (@fresh_world (Z * nat))) = true /\
  [maybe_cpu_file; gpu_file] <> [] /\
  Forall (fun f => exists rows, contents f = Ok rows)
         [maybe_cpu_file; gpu_file] /\
  last (console (import_dataset ascii_externals [maybe_cpu_file; gpu_file]
                                fresh_world).2)
    = Some (MsgDone 3).
Proof.
  apply (successful_run_counts_lines ascii_externals
           [maybe_cpu_file; gpu_file] fresh_world).
  vm_refl.
Defined.

Lemma empty_file_changes_nothing_witness :
  (import_dataset ascii_externals ([cpu_file] ++ empty_file :: [gpu_file])
                  fresh_world).1
  = (import_dataset ascii_externals ([cpu_file] ++ [gpu_file]) fresh_world).1
  /\
  same_database
    (import_dataset ascii_externals ([cpu_file] ++ empty_file :: [gpu_file])
                    fresh_world).2
    (import_dataset ascii_externals ([cpu_file] ++ [gpu_file]) fresh_world).2.
Proof.
  apply (empty_file_changes_nothing ascii_externals [cpu_file] [gpu_file]
           empty_file fresh_world).
  - reflexivity.
  - discriminate.
Defined.

(** [" Stock "]: kept as [stock] by the earlier script, filed under
    [in_stock] by the later one. *)
Lemma normalize_field_across_scripts_witness :
  DatasetScript.normalize_field ascii_externals (py " Stock ")
    = py_lower ascii_externals (strip (py " Stock ")) /\
  normalize_field ascii_externals (py " Stock ") = py "in_stock".
Proof.
  apply (normalize_field_across_scripts ascii_externals (py " Stock ")).
  replace (py_lower ascii_externals (strip (py " Stock ")))
    with (py "stock") by vm_refl.
  apply list_elem_of_here.
Defined.

(** [" Available "]: unknown to the earlier script, [true] for the later
    one. *)
Lemma bool_from_value_across_scripts_witness :
  DatasetScript.bool_from_value ascii_externals (Some (py " Available "))
    = None /\
  is_Some (bool_from_value ascii_externals (Some (py " Available "))).
Proof.
  apply (bool_from_value_across_scripts ascii_externals (py " Available ")).
  replace (py_lower ascii_externals (strip (py " Available ")))
    with (py "available") by vm_refl.
  apply list_elem_of_here.
Defined.

Lemma upsert_components_across_scripts_witness :
  same_outcome
    (DatasetScript.upsert_components ascii_externals (py "GPU")
                                     [rtx_row; intel_row] fresh_world)
    (upsert_components ascii_externals (py "GPU") [rtx_row; intel_row]
                       fresh_world).
Proof.
  apply (upsert_components_across_scripts ascii_externals (py "GPU")
           [rtx_row; intel_row] fresh_world).
  apply Forall_cons_2; [|apply Forall_cons_2; [|apply Forall_nil_2]].
  - split.
    + intros k v Hin _.
      repeat (apply elem_of_cons in Hin as [[= -> ->] | Hin];
              [not_stock_key|]).
      inversion Hin.
    + intros s Hs. vm_compute in Hs. discriminate Hs.
  - split.
    + intros k v Hin _.
      repeat (apply elem_of_cons in Hin as [[= -> ->] | Hin];
              [not_stock_key|]).
      inversion Hin.
    + intros s Hs. vm_compute in Hs. discriminate Hs.
Defined.

Lemma earlier_script_lets_the_exception_through_witness :
  DatasetScript.import_dataset ascii_externals
    ([case_file] ++ bad_cpu_file :: [ram_file]) fresh_world
  = (Some ValueError, earlier_cpu_failed.1.2,
     on_conn conn_close earlier_cpu_failed.2) /\
  committed (conn (on_conn conn_close earlier_cpu_failed.2))
    = committed (conn earlier_case_done.2) /\
  pending (conn (on_conn conn_close earlier_cpu_failed.2))
    = committed (conn earlier_case_done.2) /\
  closed (conn (on_conn conn_close earlier_cpu_failed.2)) = true.
Proof.
  apply (earlier_script_lets_the_exception_through ascii_externals
           [case_file] [ram_file] bad_cpu_file fresh_world
           earlier_case_done.2 earlier_cpu_failed.2
           earlier_case_done.1.2 earlier_cpu_failed.1.2 ValueError).
  - vm_refl.
  - vm_refl.
Defined.

(** The runs of the examples read their files as [sorted] gives them.
    The order is that of the names, not of the stems: [a-b.csv] comes
    before [a.csv]. *)
Example example_runs_in_glob_order :
  sorted_glob [case_file; bad_cpu_file] = true /\
  sorted_glob [case_file; maybe_cpu_file; ram_file] = true /\
  sorted_glob [cpu_file; gpu_file] = true /\
  sorted_glob [maybe_cpu_file; gpu_file] = true /\
  sorted_glob [cpu_file; empty_file; gpu_file] = true /\
  sorted_glob [case_file; bad_cpu_file; ram_file] = true /\
  sorted_glob [gpu_file; cpu_file] = false /\
  str_ltb (py "a") (py "a-b") = true /\
  str_ltb (py "a-b.csv") (py "a.csv") = true.
Proof. repeat split. Qed.
